(** * rain-rendering: camera poses, cable selectors and motion velocities

    A shallow embedding of [common/pose.py], [common/annotations.py],
    [config/utils.py] and of the per-sequence part of [config/daedalean.py].

    Two numeric models are used, each where the code needs it.
    - [config/utils.py] and [CameraPose.is_complete] are about NaN,
      infinities and signed zeros, so their floats are IEEE binary64 values
      ([spec_float] with precision 53 and maximal exponent 1024), with the
      arithmetic of the Standard Library's [SpecFloat].
    - The pose algebra of [common/pose.py] (trigonometry, quaternions,
      rotation matrices) is modelled over the real numbers: a Python float is
      read as the real it denotes and rounding is left out.  The relative
      rotation is modelled a second time on binary64, to show where rounding
      makes a difference.

    Third-party code ([pyproj], [numpy-quaternion], the file system) is not
    part of the repository; it enters either as a [Variable] of a section or
    as a definition that follows the library's own formulas. *)

From Stdlib Require Import ZArith List String Ascii Bool Lia.
From Stdlib Require Import Floats.SpecFloat.
From Stdlib Require Import Sorting.Sorted Sorting.Permutation.
From Stdlib Require Import Reals Lra Psatz RNsatz.
Import ListNotations.

Set Implicit Arguments.

(* ================================================================= *)
(** ** Python values and exceptions *)

Module Py.

(** The exceptions the modelled code can raise. *)
Inductive exn : Type :=
| ValueError (msg : string)
| IndexError (msg : string)
| ZeroDivisionError (msg : string).

(** A computation either returns or raises. *)
Inductive result (A : Type) : Type :=
| Ok (a : A)
| Raise (e : exn).

Arguments Ok {A} a.
Arguments Raise {A} e.

Definition bind {A B : Type} (m : result A) (k : A -> result B) : result B :=
  match m with
  | Ok a => k a
  | Raise e => Raise e
  end.

End Py.

Notation "x <- m ;; k" := (Py.bind m (fun x => k))
  (at level 61, m at next level, right associativity).

(* ================================================================= *)
(** ** IEEE binary64 *)

Module F64.

Definition prec : Z := 53.
Definition emax : Z := 1024.

Definition float : Type := spec_float.

Definition mul : float -> float -> float := SFmul prec emax.
Definition div : float -> float -> float := SFdiv prec emax.
Definition eqb : float -> float -> bool := SFeqb.

(** Conversion of an integer, rounding to nearest even. *)
Definition of_int (z : Z) : float := binary_normalize prec emax z 0 false.

Definition zero : float := S754_zero false.
Definition nan : float := S754_nan.

(** The doubles denoted by the literals [1e-9] and [3.6]. *)
Definition lit_1e_9 : float := S754_finite false 4835703278458517 (-82).
Definition lit_3_6 : float := S754_finite false 8106479329266893 (-51).

(** [np.isnan], [np.isinf], [np.isfinite]. *)
Definition isnan (f : float) : bool :=
  match f with S754_nan => true | _ => false end.
Definition isinf (f : float) : bool :=
  match f with S754_infinity _ => true | _ => false end.
Definition isfinite (f : float) : bool :=
  match f with
  | S754_zero _ | S754_finite _ _ _ => true
  | S754_infinity _ | S754_nan => false
  end.

(** A double that is a (positive or negative) zero. *)
Definition iszero (f : float) : bool :=
  match f with S754_zero _ => true | _ => false end.

(** The integer a finite double denotes, when it denotes one. *)
Definition to_Z_exact (f : float) : option Z :=
  match f with
  | S754_zero _ => Some 0%Z
  | S754_finite s m e =>
      let mag :=
        match e with
        | Z0 => Some (Zpos m)
        | Zpos p => Some (Zpos m * 2 ^ Zpos p)%Z
        | Zneg p =>
            if (Zpos m mod 2 ^ Zpos p =? 0)%Z
            then Some (Zpos m / 2 ^ Zpos p)%Z else None
        end in
      match mag with
      | Some v => Some (if s then (- v)%Z else v)
      | None => None
      end
  | _ => None
  end.

(** Subtraction and [<=] on doubles. *)
Definition sub : float -> float -> float := SFsub prec emax.
Definition leb : float -> float -> bool := SFleb.

End F64.

(** A Python number: an [int] or a [float]. *)
Inductive pynum : Type :=
| PyInt (z : Z)
| PyFloat (f : F64.float).

(** Python's [==] on numbers: an int equals a float when the float denotes
    exactly that integer. *)
Definition pynum_eqb (a b : pynum) : bool :=
  match a, b with
  | PyInt x, PyInt y => (x =? y)%Z
  | PyFloat x, PyFloat y => F64.eqb x y
  | PyInt x, PyFloat y | PyFloat y, PyInt x =>
      match F64.to_Z_exact y with
      | Some v => (x =? v)%Z
      | None => false
      end
  end.

(** Python's [==] on lists of numbers. *)
Fixpoint pylist_eqb (a b : list pynum) : bool :=
  match a, b with
  | [], [] => true
  | x :: a', y :: b' => pynum_eqb x y && pylist_eqb a' b'
  | _, _ => false
  end.

(* ================================================================= *)
(** ** numpy vectors and matrices over the reals *)

Module Np.
Local Open Scope R_scope.

Definition vec3 : Type := (R * R * R)%type.
(** A 3x3 matrix, as its three rows. *)
Definition mat3 : Type := (vec3 * vec3 * vec3)%type.

Definition vzero : vec3 := (0, 0, 0).

Definition scale (k : R) (v : vec3) : vec3 :=
  let '(a, b, c) := v in (k * a, k * b, k * c).

Definition vdiv (v : vec3) (k : R) : vec3 :=
  let '(a, b, c) := v in (a / k, b / k, c / k).

Definition vsub (u v : vec3) : vec3 :=
  let '(a, b, c) := u in let '(d, e, f) := v in (a - d, b - e, c - f).

(** [np.dot] on two 3-vectors. *)
Definition dot (u v : vec3) : R :=
  let '(a, b, c) := u in let '(d, e, f) := v in a * d + b * e + c * f.

(** [np.linalg.norm] on a 3-vector. *)
Definition norm (v : vec3) : R := sqrt (dot v v).

Definition mscale (k : R) (m : mat3) : mat3 :=
  let '(r0, r1, r2) := m in (scale k r0, scale k r1, scale k r2).

(** [m @ v]. *)
Definition matvec (m : mat3) (v : vec3) : vec3 :=
  let '(r0, r1, r2) := m in (dot r0 v, dot r1 v, dot r2 v).

Definition col (m : mat3) (j : nat) : vec3 :=
  let '((a0, a1, a2), (b0, b1, b2), (c0, c1, c2)) := m in
  match j with
  | O => (a0, b0, c0)
  | S O => (a1, b1, c1)
  | _ => (a2, b2, c2)
  end.

(** [m @ n]. *)
Definition matmul (m n : mat3) : mat3 :=
  let '(r0, r1, r2) := m in
  let row r := (dot r (col n 0), dot r (col n 1), dot r (col n 2)) in
  (row r0, row r1, row r2).

(** [np.arctan2 y x], with the value 0 at the origin. *)
Definition arctan2 (y x : R) : R :=
  if Rlt_dec 0 x then atan (y / x)
  else if Rlt_dec x 0 then
    (if Rle_dec 0 y then atan (y / x) + PI else atan (y / x) - PI)
  else if Rlt_dec 0 y then PI / 2
  else if Rlt_dec y 0 then - (PI / 2)
  else 0.

(** [math.radians] and [math.degrees]. *)
Definition radians (x : R) : R := x * (PI / 180).
Definition degrees (x : R) : R := x * (180 / PI).

End Np.

(* ================================================================= *)
(** ** numpy-quaternion over the reals

    The operations of the [quaternion] package that [common/pose.py] calls,
    by the formulas of the package. *)

Module Quaternion.
Import Py Np.
Local Open Scope R_scope.

Record quaternion : Type := mkQ { w : R; x : R; y : R; z : R }.

Definition one : quaternion := mkQ 1 0 0 0.

(** [q.norm()]: the sum of the squared components. *)
Definition qnorm (q : quaternion) : R :=
  w q * w q + x q * x q + y q * y q + z q * z q.

(** [p * q], the Hamilton product. *)
Definition qmul (p q : quaternion) : quaternion :=
  mkQ (w p * w q - x p * x q - y p * y q - z p * z q)
      (w p * x q + x p * w q + y p * z q - z p * y q)
      (w p * y q - x p * z q + y p * w q + z p * x q)
      (w p * z q + x p * y q - y p * x q + z p * w q).

(** [p / q]: [p] times the inverse of [q]. *)
Definition qdiv (p q : quaternion) : quaternion :=
  let n := qnorm q in
  mkQ ((w p * w q + x p * x q + y p * y q + z p * z q) / n)
      ((- w p * x q + x p * w q - y p * z q + z p * y q) / n)
      ((- w p * y q + x p * z q + y p * w q - z p * x q) / n)
      ((- w p * z q - x p * y q + y p * x q + z p * w q) / n).

(** [s / q] for a scalar [s]. *)
Definition scalar_div (s : R) (q : quaternion) : quaternion :=
  let n := qnorm q in
  mkQ ((s * w q) / n) ((- s * x q) / n) ((- s * y q) / n) ((- s * z q) / n).

(** The package's threshold under which a vector part counts as zero. *)
Definition QUATERNION_EPS : R := 1 / 10 ^ 14.

(** [np.exp] on a quaternion. *)
Definition qexp (q : quaternion) : quaternion :=
  let vnorm := sqrt (x q * x q + y q * y q + z q * z q) in
  if Rlt_dec QUATERNION_EPS vnorm then
    let s := sin vnorm / vnorm in
    let e := exp (w q) in
    mkQ (e * cos vnorm) (e * s * x q) (e * s * y q) (e * s * z q)
  else mkQ (exp (w q)) 0 0 0.

(** [quaternion.from_rotation_vector]: the exponential of half the vector. *)
Definition from_rotation_vector (rot : vec3) : quaternion :=
  let '(a, b, c) := rot in qexp (mkQ 0 (a / 2) (b / 2) (c / 2)).

(** Machine epsilon, the tolerance [as_rotation_matrix] uses to decide
    that its argument is normalised. *)
Definition eps : R := 1 / 2 ^ 52.

(** [quaternion.as_rotation_matrix] on a single quaternion. *)
Definition as_rotation_matrix (q : quaternion) : result mat3 :=
  let n := qnorm q in
  if Req_dec_T n 0 then
    Raise (ZeroDivisionError "Input to `as_rotation_matrix` has zero norm")
  else if Rlt_dec (Rabs (n - 1)) eps then
    Ok ((1 - 2 * (y q * y q + z q * z q),
         2 * (x q * y q - z q * w q),
         2 * (x q * z q + y q * w q)),
        (2 * (x q * y q + z q * w q),
         1 - 2 * (x q * x q + z q * z q),
         2 * (y q * z q - x q * w q)),
        (2 * (x q * z q - y q * w q),
         2 * (y q * z q + x q * w q),
         1 - 2 * (x q * x q + y q * y q)))
  else
    Ok ((1 - 2 * (y q * y q + z q * z q) / n,
         2 * (x q * y q - z q * w q) / n,
         2 * (x q * z q + y q * w q) / n),
        (2 * (x q * y q + z q * w q) / n,
         1 - 2 * (x q * x q + z q * z q) / n,
         2 * (y q * z q - x q * w q) / n),
        (2 * (x q * z q - y q * w q) / n,
         2 * (y q * z q + x q * w q) / n,
         1 - 2 * (x q * x q + y q * y q) / n)).

End Quaternion.

(* ================================================================= *)
(** ** common/pose.py *)

(** The three dataclasses are records over the type [F] of their float
    fields: binary64 where NaN matters, the reals for the pose algebra. *)

Module GeoPosition.
Import Np.

Record t (F : Type) : Type := mk
  { lat : F;       (* degrees *)
    lon : F;       (* degrees *)
    altitude : F }.

Section Transformers.
(** The two [pyproj] transformers built when the module is loaded. *)
Variable wgs84_to_geodetic : R -> R -> R -> vec3.
Variable geodetic_to_wgs84 : R -> R -> R -> vec3.

Definition to_geodetic_xyz (self : t R) : vec3 :=
  let '(x, y, z) :=
    wgs84_to_geodetic (lat self) (lon self) (altitude self) in
  (x, y, z).

Definition from_xyz (x y z : R) : t R :=
  let '(la, lo, al) := geodetic_to_wgs84 x y z in
  mk la lo al.
End Transformers.

End GeoPosition.

Module EulerRotation.
Import Py Np Quaternion.
Local Open Scope R_scope.

Record t (F : Type) : Type := mk
  { yaw : F;       (* radians *)
    pitch : F;
    roll : F }.

Definition from_degrees (yaw pitch roll : R) : t R :=
  mk (radians yaw) (radians pitch) (radians roll).

Definition from_direction_xyz (direction : vec3) : t R :=
  let unit_direction := vdiv direction (norm direction) in
  let xz_normal : vec3 := (0, 1, 0) in
  let xz_projection :=
    vsub unit_direction (scale (dot unit_direction xz_normal) xz_normal) in
  let xz_projection_norm := Rmax (norm xz_projection) (1 / 10 ^ 8) in
  let unit_xz_projection := vdiv xz_projection xz_projection_norm in
  let yaw_angle :=
    arctan2 (fst (fst unit_xz_projection)) (snd unit_xz_projection) in
  let pitch_angle :=
    arctan2 (- snd (fst unit_direction)) xz_projection_norm in
  mk yaw_angle pitch_angle 0.

Definition in_degrees (self : t R) : t R :=
  mk (degrees (yaw self)) (degrees (pitch self)) (degrees (roll self)).

(** [*] and [@] have the same precedence and associate to the left, so
    [self.pitch * yaw @ v] is [(self.pitch * yaw) @ v] and
    [self.roll * pitch @ yaw @ v] is [((self.roll * pitch) @ yaw) @ v]. *)
Definition as_quaternion_xyz (self : t R) : result quaternion :=
  let yaw_quat := from_rotation_vector (scale (yaw self) (0, 1, 0)) in
  yaw_m <- as_rotation_matrix yaw_quat ;;
  let pitch_quat :=
    from_rotation_vector (matvec (mscale (pitch self) yaw_m) (1, 0, 0)) in
  pitch_m <- as_rotation_matrix pitch_quat ;;
  let roll_quat :=
    from_rotation_vector
      (matvec (matmul (mscale (roll self) pitch_m) yaw_m) (0, 0, 1)) in
  Ok (qmul (qmul roll_quat pitch_quat) yaw_quat).

Definition as_quaternion_frd (self : t R) : quaternion :=
  let cos_roll := cos (roll self / 2) in
  let sin_roll := sin (roll self / 2) in
  let cos_pitch := cos (pitch self / 2) in
  let sin_pitch := sin (pitch self / 2) in
  let cos_yaw := cos (yaw self / 2) in
  let sin_yaw := sin (yaw self / 2) in
  let w := cos_roll * cos_pitch * cos_yaw + sin_roll * sin_pitch * sin_yaw in
  let x := sin_roll * cos_pitch * cos_yaw - cos_roll * sin_pitch * sin_yaw in
  let y := cos_roll * sin_pitch * cos_yaw + sin_roll * cos_pitch * sin_yaw in
  let z := cos_roll * cos_pitch * sin_yaw - sin_roll * sin_pitch * cos_yaw in
  mkQ w x y z.

End EulerRotation.

Module CameraPose.

Record t (F : Type) : Type := mk
  { position : GeoPosition.t F;
    rotation : EulerRotation.t F }.

(** The fields are declared [float], so [value is not None] holds of both
    and what is left of the test is [not np.isnan(value)]. *)
Definition is_complete (self : t F64.float) : bool :=
  forallb (fun value => true && negb (F64.isnan value))
          [GeoPosition.lat (position self); GeoPosition.lon (position self)].

End CameraPose.

Module Pose.
Import Py Np Quaternion.
Local Open Scope R_scope.
Local Open Scope string_scope.

(** What [rotation] returns: a quaternion, or a matrix when [as_matrix]. *)
Inductive rotation_result : Type :=
| RotQuaternion (q : quaternion)
| RotMatrix (m : mat3).

Definition rotation (ref_pose current_pose : CameraPose.t R)
           (coord_system : string) (as_matrix : bool)
  : result rotation_result :=
  quats <-
    (if String.eqb coord_system "xyz" then
       current_quaternion <-
         EulerRotation.as_quaternion_xyz (CameraPose.rotation current_pose) ;;
       ref_quaternion <-
         EulerRotation.as_quaternion_xyz (CameraPose.rotation ref_pose) ;;
       Ok (current_quaternion, ref_quaternion)
     else if String.eqb coord_system "frd" then
       Ok (EulerRotation.as_quaternion_frd (CameraPose.rotation current_pose),
           EulerRotation.as_quaternion_frd (CameraPose.rotation ref_pose))
     else
       Raise (ValueError ("Invalid coordinate system: " ++ coord_system))) ;;
  let '(current_quaternion, ref_quaternion) := quats in
  let rot_quaternion := qdiv current_quaternion ref_quaternion in
  if as_matrix then
    m <- as_rotation_matrix rot_quaternion ;; Ok (RotMatrix m)
  else Ok (RotQuaternion rot_quaternion).

Definition earth_to_ned_local_tangent_plane_rotation
           (origin_position : GeoPosition.t R) : mat3 :=
  let phi := radians (GeoPosition.lat origin_position) in
  let lam := radians (GeoPosition.lon origin_position) in
  ((- sin phi * cos lam, - sin phi * sin lam, cos phi),
   (- sin lam, cos lam, 0),
   (- cos phi * cos lam, - cos phi * sin lam, - sin phi)).

Definition frd_translation_to_xyz (frd_translation_vector : vec3) : vec3 :=
  let '(forward_, right_, down_) := frd_translation_vector in
  (right_, down_, forward_).

Section Translation.
Variable wgs84_to_geodetic : R -> R -> R -> vec3.

Definition translation (ref_pose current_pose : CameraPose.t R)
  : result vec3 :=
  let ref_geo_xyz :=
    GeoPosition.to_geodetic_xyz wgs84_to_geodetic
      (CameraPose.position ref_pose) in
  let current_geo_xyz :=
    GeoPosition.to_geodetic_xyz wgs84_to_geodetic
      (CameraPose.position current_pose) in
  let xyz_translation := vsub current_geo_xyz ref_geo_xyz in
  let rot_ltp :=
    earth_to_ned_local_tangent_plane_rotation
      (CameraPose.position ref_pose) in
  let translation_ned_ltp := matvec rot_ltp xyz_translation in
  rot_0 <-
    as_rotation_matrix
      (scalar_div 1
         (EulerRotation.as_quaternion_frd (CameraPose.rotation ref_pose))) ;;
  let translation_frd_ltp := matvec rot_0 translation_ned_ltp in
  Ok (frd_translation_to_xyz translation_frd_ltp).
End Translation.

End Pose.

(* ================================================================= *)
(** ** common/annotations.py: line types and cable selectors *)

Module LineType.
Import Py.
Local Open Scope string_scope.

Inductive t : Type :=
| VISIBLE_CABLE
| INFERRED_CABLE
| NOT_CABLE
| VISIBLE_OR_INFERRED.

Definition eqb (a b : t) : bool :=
  match a, b with
  | VISIBLE_CABLE, VISIBLE_CABLE
  | INFERRED_CABLE, INFERRED_CABLE
  | NOT_CABLE, NOT_CABLE
  | VISIBLE_OR_INFERRED, VISIBLE_OR_INFERRED => true
  | _, _ => false
  end.

(** [LineType.parse], on the polyline's [label] attribute. *)
Definition parse (label : string) : t :=
  if String.eqb label "Cable visible" then VISIBLE_CABLE
  else if String.eqb label "Cable inferred" then INFERRED_CABLE
  else NOT_CABLE.

Definition from_selector (selector : string) : result t :=
  if String.eqb selector "visible" then Ok VISIBLE_CABLE
  else if String.eqb selector "all" then Ok VISIBLE_OR_INFERRED
  else Raise (ValueError ("Invalid selector '" ++ selector ++ "'")).

End LineType.

Module CableLine.

(** The [line] field is the shapely [LineString] of [points]; it carries
    no further data. *)
Record t : Type := mk
  { points : list (list F64.float);
    type : LineType.t }.

Definition is_visible (self : t) : bool :=
  LineType.eqb (type self) LineType.VISIBLE_CABLE.

Definition is_inferred (self : t) : bool :=
  LineType.eqb (type self) LineType.INFERRED_CABLE.

Definition is_visible_or_inferred (self : t) : bool :=
  LineType.eqb (type self) LineType.VISIBLE_CABLE
  || LineType.eqb (type self) LineType.INFERRED_CABLE
  || LineType.eqb (type self) LineType.VISIBLE_OR_INFERRED.

End CableLine.

Module ImageAnnotations.
Import Py.
Local Open Scope string_scope.

(** An annotated box: exclusion zones and poles are boxes; [cables] reads
    neither. *)
Record box : Type := mkBox
  { top_left : F64.float * F64.float;
    bottom_right : F64.float * F64.float }.

Record t : Type := mk
  { relative_image_path : string;
    exclusion_zones : list box;
    powerline_poles : list box;
    cable_lines : list CableLine.t;
    pose : option (CameraPose.t F64.float) }.

Definition visible_cables (self : t) : list CableLine.t :=
  filter CableLine.is_visible (cable_lines self).

Definition cables (self : t) (selector : string) : result (list CableLine.t) :=
  if String.eqb selector "visible" then
    Ok (filter CableLine.is_visible (cable_lines self))
  else if String.eqb selector "inferred" then
    Ok (filter CableLine.is_inferred (cable_lines self))
  else if String.eqb selector "all" then
    Ok (filter CableLine.is_visible_or_inferred (cable_lines self))
  else Raise (ValueError ("Unknown cable selector '" ++ selector ++ "'")).

(** [ExclusionZone.height], [PowerlinePole.height] and the two [width]s:
    a box stores [(top, left)] and [(bottom, right)]. *)
Definition height (self : box) : F64.float :=
  F64.sub (fst (bottom_right self)) (fst (top_left self)).

Definition width (self : box) : F64.float :=
  F64.sub (snd (bottom_right self)) (snd (top_left self)).

Definition poles (self : t) (max_height : option F64.float) : list box :=
  match max_height with
  | None => powerline_poles self
  | Some max_height =>
      filter (fun pole => F64.leb (height pole) max_height)
             (powerline_poles self)
  end.

End ImageAnnotations.

(* ================================================================= *)
(** ** config/utils.py: the velocity estimator *)

Module Utils.
Import Py.
Local Open Scope Z_scope.

Definition DEFAULT_SPEED : Z := 60.  (* km/h *)

(** [sorted] on a list of ints. *)
Fixpoint insert (t : Z) (l : list Z) : list Z :=
  match l with
  | [] => [t]
  | h :: tl => if t <=? h then t :: l else h :: insert t tl
  end.

Fixpoint sorted (l : list Z) : list Z :=
  match l with
  | [] => []
  | h :: tl => insert h (sorted tl)
  end.

(** Arithmetic of numpy's [int64]: results wrap around. *)
Definition wrap64 (z : Z) : Z := (z + 2 ^ 63) mod 2 ^ 64 - 2 ^ 63.

(** [np.diff] on a one-dimensional [int64] array: [a[1:] - a[:-1]].  A
    list of Python ints becomes such an array when all of them fit
    [int64]; the model covers these lists only. *)
Fixpoint np_diff (a : list Z) : list Z :=
  match a with
  | x :: (y :: _) as tl => wrap64 (y - x) :: np_diff tl
  | _ => []
  end.

(** An elementwise binary operation on two one-dimensional arrays, with
    numpy's broadcasting of a one-element operand. *)
Definition np_elementwise (f : F64.float -> F64.float -> F64.float)
           (a b : list F64.float) : result (list F64.float) :=
  if (List.length a =? List.length b)%nat then
    Ok (map (fun p => f (fst p) (snd p)) (combine a b))
  else
    match a, b with
    | [x], _ => Ok (map (fun y => f x y) b)
    | _, [y] => Ok (map (fun x => f x y) a)
    | _, _ =>
        Raise (ValueError "operands could not be broadcast together")
    end.

(** [arr[mask(arr)] = value]: assignment under a boolean mask. *)
Definition mask_assign (mask : F64.float -> bool) (value : F64.float)
           (arr : list F64.float) : list F64.float :=
  map (fun v => if mask v then value else v) arr.

(** [arr[0]]. *)
Definition index0 (arr : list F64.float) : result F64.float :=
  match arr with
  | v :: _ => Ok v
  | [] => Raise (IndexError "index 0 is out of bounds for axis 0 with size 0")
  end.

Section Estimator.
(** The pose stored for a recording and a timestamp: what [parse_pose]
    reads from [poses_folder / recording / "<timestamp>_pose.csv"], a line
    of six decimal values, or [None] when there is no such file. *)
Variable pose_file : string -> Z -> option (CameraPose.t F64.float).

(** [np.linalg.norm(translation(start_pose, end_pose))] as a double; its
    value depends on [pyproj] and on the rounding of the math library. *)
Variable translation_norm :
  CameraPose.t F64.float -> CameraPose.t F64.float -> F64.float.

(** The list [poses]: one entry for each of the sorted timestamps. *)
Definition poses (recording : string) (timestamps : list Z)
  : list (option (CameraPose.t F64.float)) :=
  map (pose_file recording) (sorted timestamps).

(** The array [time_diff], in seconds.  The timestamps are nanosecond
    counts that fit numpy's [int64]; [np.diff] subtracts in [int64] and the
    product with the double [1e-9] converts each difference to a double. *)
Definition time_diff (timestamps : list Z) : list F64.float :=
  map (fun d => F64.mul (F64.of_int d) F64.lit_1e_9) (np_diff timestamps).

(** One entry of [displacements], in meters. *)
Definition displacement
           (pair : option (CameraPose.t F64.float)
                   * option (CameraPose.t F64.float)) : F64.float :=
  match pair with
  | (Some start_pose, Some end_pose) => translation_norm start_pose end_pose
  | _ => F64.of_int 0
  end.

(** The array [displacements], over [zip(poses[:-1], poses[1:])]. *)
Definition displacements (ps : list (option (CameraPose.t F64.float)))
  : list F64.float :=
  map displacement (combine (removelast ps) (tl ps)).

(** [velocities_km_per_h] before the default speed is filled in. *)
Definition raw_velocities_km_per_h (recording : string)
           (timestamps : list Z) : result (list F64.float) :=
  velocities_m_per_s <-
    np_elementwise F64.div (displacements (poses recording timestamps))
                   (time_diff timestamps) ;;
  Ok (map (fun v => F64.mul v F64.lit_3_6) velocities_m_per_s).

(** The two masked assignments of [DEFAULT_SPEED]. *)
Definition fill_default (velocities_km_per_h : list F64.float)
  : list F64.float :=
  mask_assign (fun v => negb (F64.isfinite v)) (F64.of_int DEFAULT_SPEED)
    (mask_assign (fun v => F64.eqb v (F64.of_int 0))
                 (F64.of_int DEFAULT_SPEED) velocities_km_per_h).

Definition compute_camera_motion_velocities (recording : string)
           (timestamps : list Z) : result (list pynum) :=
  if (List.length timestamps =? 1)%nat then Ok [PyInt DEFAULT_SPEED]
  else
    raw <- raw_velocities_km_per_h recording timestamps ;;
    let velocities_km_per_h := fill_default raw in
    first <- index0 velocities_km_per_h ;;
    Ok (PyFloat first :: map PyFloat velocities_km_per_h).
End Estimator.

(** The elapsed times the specification describes: the differences of
    consecutive timestamps of the sorted sequence, in seconds. *)
Definition sorted_pair_elapsed (timestamps : list Z) : list F64.float :=
  map (fun d => F64.mul (F64.of_int d) F64.lit_1e_9)
      (np_diff (sorted timestamps)).

End Utils.

(* ================================================================= *)
(** ** Vocabulary of the specification and sample inputs *)

Module Spec.
Local Open Scope Z_scope.

(** The double [60.0]. *)
Definition sixty : F64.float := S754_finite false 8444249301319680 (-47).

(** "Exactly zero, or non-finite". *)
Definition zero_or_non_finite (v : F64.float) : bool :=
  F64.iszero v || negb (F64.isfinite v).

(** The substitution rule on one velocity. *)
Definition substitute (v : F64.float) : F64.float :=
  if zero_or_non_finite v then sixty else v.

(** A number that is neither NaN, nor infinite, nor zero. *)
Definition regular (v : pynum) : bool :=
  match v with
  | PyInt z => negb (z =? 0)
  | PyFloat f =>
      negb (F64.isnan f) && negb (F64.isinf f) && negb (F64.iszero f)
  end.

(** The velocity, in km/h, of an interval with the poses [pair] and the
    timestamp difference [d] in nanoseconds. *)
Definition interval_velocity
           (translation_norm :
              CameraPose.t F64.float -> CameraPose.t F64.float -> F64.float)
           (pair : option (CameraPose.t F64.float)
                   * option (CameraPose.t F64.float)) (d : Z) : F64.float :=
  F64.mul (F64.div (Utils.displacement translation_norm pair)
                   (F64.mul (F64.of_int d) F64.lit_1e_9))
          F64.lit_3_6.

(** A pose is at no distance from itself: the displacement from a pose to
    the same pose is a zero, or NaN when the pose has undefined fields. *)
Definition still
           (translation_norm :
              CameraPose.t F64.float -> CameraPose.t F64.float -> F64.float)
  : Prop :=
  forall pose,
    F64.iszero (translation_norm pose pose)
    || F64.isnan (translation_norm pose pose) = true.

(** The message of numpy's [IndexError] on an empty array. *)
Definition empty_index_message : string :=
  "index 0 is out of bounds for axis 0 with size 0".

End Spec.

Module Sample.
Local Open Scope Z_scope.

Definition origin : CameraPose.t F64.float :=
  CameraPose.mk (GeoPosition.mk F64.zero F64.zero F64.zero)
                (EulerRotation.mk F64.zero F64.zero F64.zero).

(** A poses folder with a pose file for every timestamp. *)
Definition every_pose (_ : string) (_ : Z)
  : option (CameraPose.t F64.float) := Some origin.

(** A poses folder without pose files. *)
Definition no_pose (_ : string) (_ : Z)
  : option (CameraPose.t F64.float) := None.

(** A displacement that is zero between any two poses. *)
Definition at_rest (_ _ : CameraPose.t F64.float) : F64.float := F64.zero.

(** Consecutive poses one meter apart. *)
Definition one_meter (_ _ : CameraPose.t F64.float) : F64.float :=
  F64.of_int 1.

(** A pose whose altitude and angles are NaN. *)
Definition nan_elsewhere (lat lon : F64.float) : CameraPose.t F64.float :=
  CameraPose.mk (GeoPosition.mk lat lon F64.nan)
                (EulerRotation.mk F64.nan F64.nan F64.nan).

(** The double [-36000000.0]: one meter in [-1e-7] seconds, in km/h. *)
Definition minus_36e6 : F64.float :=
  S754_finite true 4831838208000000 (-27).

(** The doubles [-1e-7] and [1e-7] that [100 * 1e-9] rounds to. *)
Definition minus_1e_7 : F64.float := S754_finite true 7555786372591433 (-76).
Definition plus_1e_7 : F64.float := S754_finite false 7555786372591433 (-76).

(** A pose over the reals, at the origin and level. *)
Definition level : CameraPose.t R :=
  CameraPose.mk (GeoPosition.mk 0%R 0%R 0%R) (EulerRotation.mk 0%R 0%R 0%R).

(** An image without annotations. *)
Definition bare_image : ImageAnnotations.t :=
  ImageAnnotations.mk "rec/100.png" [] [] [] None.

End Sample.

(** ** Vocabulary for the rotation conventions *)

Module Conventions.
Import Py Quaternion.
Local Open Scope string_scope.

(** The 3x3 identity matrix. *)
Definition identity_matrix : Np.mat3 := ((1, 0, 0), (0, 1, 0), (0, 0, 1))%R.

(** The quaternion of a pose under the convention a tag selects: what
    [rotation] computes for each of its two poses. *)
Definition orientation (coord_system : string) (pose : CameraPose.t R)
  : result quaternion :=
  if String.eqb coord_system "xyz" then
    EulerRotation.as_quaternion_xyz (CameraPose.rotation pose)
  else if String.eqb coord_system "frd" then
    Ok (EulerRotation.as_quaternion_frd (CameraPose.rotation pose))
  else Raise (ValueError ("Invalid coordinate system: " ++ coord_system)).

(** The tags [rotation] knows. *)
Definition known (coord_system : string) : Prop :=
  coord_system = "xyz" \/ coord_system = "frd".

End Conventions.

(* ================================================================= *)
(** ** common/annotations.py: image paths *)

(** A [pathlib] path as the library holds it once parsed: whether it starts
    at the root, and its components, none of them empty. *)
Module PurePath.
Import Py.
Local Open Scope string_scope.

Record t : Type := mk { absolute : bool; parts : list string }.

(** [str(path)]. *)
Definition to_string (p : t) : string :=
  match absolute p, parts p with
  | false, [] => "."
  | false, _ => String.concat "/" (parts p)
  | true, _ => "/" ++ String.concat "/" (parts p)
  end.

(** [path.name]: the last component, or the empty string. *)
Definition name (p : t) : string := last (parts p) "".

(** [path.parents]: the ancestors, the nearest first. *)
Definition parents (p : t) : list t :=
  map (fun k => mk (absolute p) (firstn k (parts p)))
      (rev (seq 0 (List.length (parts p)))).

(** [path / name] for a name of one component (or the empty name). *)
Definition joinpath (p : t) (name : string) : t :=
  if String.eqb name "" then p else mk (absolute p) (parts p ++ [name]).

Fixpoint starts_with (prefix l : list string) : bool :=
  match prefix, l with
  | [], _ => true
  | a :: prefix', b :: l' => String.eqb a b && starts_with prefix' l'
  | _ :: _, [] => false
  end.

(** [path.relative_to(other)], with the message of Python 3.9. *)
Definition relative_to (p other : t) : result t :=
  if Bool.eqb (absolute p) (absolute other)
     && starts_with (parts other) (parts p)
  then Ok (mk false (skipn (List.length (parts other)) (parts p)))
  else Raise (ValueError ("'" ++ to_string p ++ "' is not in the subpath of '"
                              ++ to_string other ++ "'")).

End PurePath.

Module AnnotationPaths.
Import Py.
Local Open Scope string_scope.

(** [l[i]] on a Python list, negative indices counting from the end. *)
Definition getitem {A : Type} (l : list A) (i : Z) : result A :=
  let n := Z.of_nat (List.length l) in
  let j := if (i <? 0)%Z then (i + n)%Z else i in
  if ((0 <=? j) && (j <? n))%Z then
    match nth_error l (Z.to_nat j) with
    | Some a => Ok a
    | None => Raise (IndexError "list index out of range")
    end
  else Raise (IndexError "list index out of range").

(** [_fix_relative_image_path], on the path held by the [name] attribute of
    the image node. *)
Definition _fix_relative_image_path (image_path : PurePath.t)
  : result PurePath.t :=
  let parents := PurePath.parents image_path in
  if (List.length parents =? 3)%nat then
    parent <- getitem parents 0 ;;
    Ok (PurePath.joinpath parent (PurePath.name image_path))
  else if (3 <? List.length parents)%nat then
    ancestor <- getitem (PurePath.parents image_path) (-3) ;;
    PurePath.relative_to image_path ancestor
  else
    Raise (ValueError ("Invalid image path '"
                         ++ PurePath.to_string image_path ++ "'")).

End AnnotationPaths.

(* ================================================================= *)
(** ** config/daedalean.py: the settings of one sequence *)

Module Daedalean.
Import Py.
Local Open Scope Z_scope.

Definition RAIN_FALLRATE : Z := 10.  (* in mm/h *)

(** [s.rfind(c)] for a needle of one character: the highest index of [c]
    in [s], or -1. *)
Fixpoint rfind (s : list ascii) (c : ascii) : Z :=
  match s with
  | [] => -1
  | a :: tl =>
      let r := rfind tl c in
      if 0 <=? r then r + 1 else if Ascii.eqb a c then 0 else -1
  end.

(** [s[:stop]]. *)
Definition slice_to (s : list ascii) (stop : Z) : list ascii :=
  let n := Z.of_nat (List.length s) in
  let k := if stop <? 0 then Z.max 0 (stop + n) else Z.min stop n in
  firstn (Z.to_nat k) s.

(** [s[start:]]. *)
Definition slice_from (s : list ascii) (start : Z) : list ascii :=
  let n := Z.of_nat (List.length s) in
  let k := if start <? 0 then Z.max 0 (start + n) else Z.min start n in
  skipn (Z.to_nat k) s.

(** The name [recording] in the loop of [settings], from the name of the
    sequence folder. *)
Definition recording (sequence : list ascii) : list ascii :=
  let separator_idx := rfind sequence "/"%char in
  (slice_to sequence separator_idx
   ++ "/"%char :: slice_from sequence (separator_idx + 1))%list.

Section SimSteps.
Variable pose_file : string -> Z -> option (CameraPose.t F64.float).
Variable translation_norm :
  CameraPose.t F64.float -> CameraPose.t F64.float -> F64.float.

(** The entry ["sim_steps"] that [settings] builds for one sequence folder
    whose frames have the given timestamps: the pair of its ["cam_motion"]
    and ["rain_fallrate"] lists. *)
Definition sim_steps (sequence : list ascii) (timestamps : list Z)
  : result (list pynum * list Z) :=
  let n_frames := List.length timestamps in
  cam_motion <-
    Utils.compute_camera_motion_velocities pose_file translation_norm
      (string_of_list_ascii (recording sequence)) timestamps ;;
  Ok (cam_motion, repeat RAIN_FALLRATE n_frames).
End SimSteps.

End Daedalean.

(* ================================================================= *)
(** ** common/pose.py on doubles: the relative rotation

    The same code as in [EulerRotation] and [Pose], evaluated in binary64
    as the interpreter and the [quaternion] package evaluate it: every
    arithmetic operation rounds, in the order the source writes it. *)

(** Arithmetic of doubles beyond what the velocity estimator needs. *)
Module D.

Definition add : F64.float -> F64.float -> F64.float := SFadd F64.prec F64.emax.
Definition sqrt : F64.float -> F64.float := SFsqrt F64.prec F64.emax.
Definition opp : F64.float -> F64.float := SFopp.
Definition abs : F64.float -> F64.float := SFabs.
Definition ltb : F64.float -> F64.float -> bool := SFltb.

Definition one : F64.float := F64.of_int 1.
Definition two : F64.float := F64.of_int 2.

(** [2^-26] and [2^-27]. *)
Definition two_pow_m26 : F64.float := S754_finite false 4503599627370496 (-78).
Definition two_pow_m27 : F64.float := S754_finite false 4503599627370496 (-79).

(** The double denoted by the literal [1e-14], and machine epsilon
    [2^-52]. *)
Definition lit_1e_14 : F64.float := S754_finite false 6338253001141147 (-99).
Definition epsilon : F64.float := S754_finite false 4503599627370496 (-104).

End D.

(** The C math library, where its value is beyond doubt.  Below [2^-26] in
    magnitude the double nearest to [sin x] is [x] itself, below [2^-27] the
    double nearest to [cos x] is [1], and [exp 0] is [1]; elsewhere the
    model gives no value. *)
Module Libm.

Definition sin (x : F64.float) : option F64.float :=
  if D.ltb (D.abs x) D.two_pow_m26 then Some x else None.

Definition cos (x : F64.float) : option F64.float :=
  if D.ltb (D.abs x) D.two_pow_m27 then Some D.one else None.

Definition exp (x : F64.float) : option F64.float :=
  if F64.eqb x F64.zero then Some D.one else None.

End Libm.

Module Quaternion64.
Import Py.

Definition vec3 : Type := (F64.float * F64.float * F64.float)%type.
Definition mat3 : Type := (vec3 * vec3 * vec3)%type.

Record quaternion : Type :=
  mkQ { w : F64.float; x : F64.float; y : F64.float; z : F64.float }.

Definition one : quaternion := mkQ D.one F64.zero F64.zero F64.zero.

(** [k * v] for a Python float and an array. *)
Definition scale (k : F64.float) (v : vec3) : vec3 :=
  let '(a, b, c) := v in (F64.mul k a, F64.mul k b, F64.mul k c).

Definition dot (u v : vec3) : F64.float :=
  let '(a, b, c) := u in let '(d, e, f) := v in
  D.add (D.add (F64.mul a d) (F64.mul b e)) (F64.mul c f).

Definition mscale (k : F64.float) (m : mat3) : mat3 :=
  let '(r0, r1, r2) := m in (scale k r0, scale k r1, scale k r2).

Definition matvec (m : mat3) (v : vec3) : vec3 :=
  let '(r0, r1, r2) := m in (dot r0 v, dot r1 v, dot r2 v).

Definition col (m : mat3) (j : nat) : vec3 :=
  let '((a0, a1, a2), (b0, b1, b2), (c0, c1, c2)) := m in
  match j with
  | O => (a0, b0, c0)
  | S O => (a1, b1, c1)
  | _ => (a2, b2, c2)
  end.

Definition matmul (m n : mat3) : mat3 :=
  let '(r0, r1, r2) := m in
  let row r := (dot r (col n 0), dot r (col n 1), dot r (col n 2)) in
  (row r0, row r1, row r2).

(** [q.norm()]. *)
Definition qnorm (q : quaternion) : F64.float :=
  D.add (D.add (D.add (F64.mul (w q) (w q)) (F64.mul (x q) (x q)))
               (F64.mul (y q) (y q)))
        (F64.mul (z q) (z q)).

(** [p * q]. *)
Definition qmul (p q : quaternion) : quaternion :=
  mkQ (F64.sub (F64.sub (F64.sub (F64.mul (w p) (w q)) (F64.mul (x p) (x q)))
                        (F64.mul (y p) (y q)))
               (F64.mul (z p) (z q)))
      (F64.sub (D.add (D.add (F64.mul (w p) (x q)) (F64.mul (x p) (w q)))
                      (F64.mul (y p) (z q)))
               (F64.mul (z p) (y q)))
      (D.add (D.add (F64.sub (F64.mul (w p) (y q)) (F64.mul (x p) (z q)))
                    (F64.mul (y p) (w q)))
             (F64.mul (z p) (x q)))
      (D.add (F64.sub (D.add (F64.mul (w p) (z q)) (F64.mul (x p) (y q)))
                      (F64.mul (y p) (x q)))
             (F64.mul (z p) (w q))).

(** [p / q]. *)
Definition qdiv (p q : quaternion) : quaternion :=
  let n := qnorm q in
  mkQ (F64.div
         (D.add (D.add (D.add (F64.mul (w p) (w q)) (F64.mul (x p) (x q)))
                       (F64.mul (y p) (y q)))
                (F64.mul (z p) (z q))) n)
      (F64.div
         (D.add (F64.sub (D.add (F64.mul (D.opp (w p)) (x q))
                                (F64.mul (x p) (w q)))
                         (F64.mul (y p) (z q)))
                (F64.mul (z p) (y q))) n)
      (F64.div
         (F64.sub (D.add (D.add (F64.mul (D.opp (w p)) (y q))
                                (F64.mul (x p) (z q)))
                         (F64.mul (y p) (w q)))
                  (F64.mul (z p) (x q))) n)
      (F64.div
         (D.add (D.add (F64.sub (F64.mul (D.opp (w p)) (z q))
                                (F64.mul (x p) (y q)))
                       (F64.mul (y p) (x q)))
                (F64.mul (z p) (w q))) n).

(** [np.exp] on a quaternion. *)
Definition qexp (q : quaternion) : option quaternion :=
  let vnorm :=
    D.sqrt (D.add (D.add (F64.mul (x q) (x q)) (F64.mul (y q) (y q)))
                  (F64.mul (z q) (z q))) in
  if D.ltb D.lit_1e_14 vnorm then
    match Libm.sin vnorm, Libm.exp (w q), Libm.cos vnorm with
    | Some sin_v, Some e, Some cos_v =>
        let s := F64.div sin_v vnorm in
        Some (mkQ (F64.mul e cos_v)
                  (F64.mul (F64.mul e s) (x q))
                  (F64.mul (F64.mul e s) (y q))
                  (F64.mul (F64.mul e s) (z q)))
    | _, _, _ => None
    end
  else
    match Libm.exp (w q) with
    | Some e => Some (mkQ e F64.zero F64.zero F64.zero)
    | None => None
    end.

(** [quaternion.from_rotation_vector]. *)
Definition from_rotation_vector (rot : vec3) : option quaternion :=
  let '(a, b, c) := rot in
  qexp (mkQ F64.zero (F64.div a D.two) (F64.div b D.two) (F64.div c D.two)).

(** [quaternion.as_rotation_matrix] on a single quaternion. *)
Definition as_rotation_matrix (q : quaternion) : result mat3 :=
  let n := qnorm q in
  let sq v := F64.mul v v in
  if F64.eqb n F64.zero then
    Raise (ZeroDivisionError "Input to `as_rotation_matrix` has zero norm")
  else if D.ltb (D.abs (F64.sub n D.one)) D.epsilon then
    Ok ((F64.sub D.one (F64.mul D.two (D.add (sq (y q)) (sq (z q)))),
         F64.mul D.two (F64.sub (F64.mul (x q) (y q)) (F64.mul (z q) (w q))),
         F64.mul D.two (D.add (F64.mul (x q) (z q)) (F64.mul (y q) (w q)))),
        (F64.mul D.two (D.add (F64.mul (x q) (y q)) (F64.mul (z q) (w q))),
         F64.sub D.one (F64.mul D.two (D.add (sq (x q)) (sq (z q)))),
         F64.mul D.two (F64.sub (F64.mul (y q) (z q)) (F64.mul (x q) (w q)))),
        (F64.mul D.two (F64.sub (F64.mul (x q) (z q)) (F64.mul (y q) (w q))),
         F64.mul D.two (D.add (F64.mul (y q) (z q)) (F64.mul (x q) (w q))),
         F64.sub D.one (F64.mul D.two (D.add (sq (x q)) (sq (y q))))))
  else
    Ok ((F64.sub D.one
           (F64.div (F64.mul D.two (D.add (sq (y q)) (sq (z q)))) n),
         F64.div
           (F64.mul D.two (F64.sub (F64.mul (x q) (y q)) (F64.mul (z q) (w q))))
           n,
         F64.div
           (F64.mul D.two (D.add (F64.mul (x q) (z q)) (F64.mul (y q) (w q))))
           n),
        (F64.div
           (F64.mul D.two (D.add (F64.mul (x q) (y q)) (F64.mul (z q) (w q))))
           n,
         F64.sub D.one
           (F64.div (F64.mul D.two (D.add (sq (x q)) (sq (z q)))) n),
         F64.div
           (F64.mul D.two (F64.sub (F64.mul (y q) (z q)) (F64.mul (x q) (w q))))
           n),
        (F64.div
           (F64.mul D.two (F64.sub (F64.mul (x q) (z q)) (F64.mul (y q) (w q))))
           n,
         F64.div
           (F64.mul D.two (D.add (F64.mul (y q) (z q)) (F64.mul (x q) (w q))))
           n,
         F64.sub D.one
           (F64.div (F64.mul D.two (D.add (sq (x q)) (sq (y q)))) n))).

End Quaternion64.

Module Pose64.
Import Py Quaternion64.
Local Open Scope string_scope.

(** The integer arrays [[0, 1, 0]], [[1, 0, 0]] and [[0, 0, 1]], as the
    doubles they become in a product with doubles. *)
Definition axis_y : vec3 := (F64.of_int 0, F64.of_int 1, F64.of_int 0).
Definition axis_x : vec3 := (F64.of_int 1, F64.of_int 0, F64.of_int 0).
Definition axis_z : vec3 := (F64.of_int 0, F64.of_int 0, F64.of_int 1).

(** [EulerRotation.as_quaternion_xyz].  [None]: the computation leaves the
    range on which [Libm] is modelled. *)
Definition as_quaternion_xyz (self : EulerRotation.t F64.float)
  : option (result quaternion) :=
  match from_rotation_vector (scale (EulerRotation.yaw self) axis_y) with
  | None => None
  | Some yaw_quat =>
      match as_rotation_matrix yaw_quat with
      | Raise e => Some (Raise e)
      | Ok yaw_m =>
          match from_rotation_vector
                  (matvec (mscale (EulerRotation.pitch self) yaw_m) axis_x)
          with
          | None => None
          | Some pitch_quat =>
              match as_rotation_matrix pitch_quat with
              | Raise e => Some (Raise e)
              | Ok pitch_m =>
                  match from_rotation_vector
                          (matvec
                             (matmul (mscale (EulerRotation.roll self) pitch_m)
                                     yaw_m)
                             axis_z)
                  with
                  | None => None
                  | Some roll_quat =>
                      Some (Ok (qmul (qmul roll_quat pitch_quat) yaw_quat))
                  end
              end
          end
      end
  end.

(** [EulerRotation.as_quaternion_frd]. *)
Definition as_quaternion_frd (self : EulerRotation.t F64.float)
  : option quaternion :=
  let half a := F64.div a D.two in
  match Libm.cos (half (EulerRotation.roll self)),
        Libm.sin (half (EulerRotation.roll self)),
        Libm.cos (half (EulerRotation.pitch self)),
        Libm.sin (half (EulerRotation.pitch self)),
        Libm.cos (half (EulerRotation.yaw self)),
        Libm.sin (half (EulerRotation.yaw self)) with
  | Some cos_roll, Some sin_roll, Some cos_pitch, Some sin_pitch,
    Some cos_yaw, Some sin_yaw =>
      Some (mkQ
              (D.add (F64.mul (F64.mul cos_roll cos_pitch) cos_yaw)
                     (F64.mul (F64.mul sin_roll sin_pitch) sin_yaw))
              (F64.sub (F64.mul (F64.mul sin_roll cos_pitch) cos_yaw)
                       (F64.mul (F64.mul cos_roll sin_pitch) sin_yaw))
              (D.add (F64.mul (F64.mul cos_roll sin_pitch) cos_yaw)
                     (F64.mul (F64.mul sin_roll cos_pitch) sin_yaw))
              (F64.sub (F64.mul (F64.mul cos_roll cos_pitch) sin_yaw)
                       (F64.mul (F64.mul sin_roll sin_pitch) cos_yaw)))
  | _, _, _, _, _, _ => None
  end.

Inductive rotation_result : Type :=
| RotQuaternion (q : quaternion)
| RotMatrix (m : mat3).

(** [rotation]. *)
Definition rotation (ref_pose current_pose : CameraPose.t F64.float)
           (coord_system : string) (as_matrix : bool)
  : option (result rotation_result) :=
  let divide (current_quaternion ref_quaternion : quaternion) :=
    let rot_quaternion := qdiv current_quaternion ref_quaternion in
    if as_matrix then
      match as_rotation_matrix rot_quaternion with
      | Ok m => Ok (RotMatrix m)
      | Raise e => Raise e
      end
    else Ok (RotQuaternion rot_quaternion) in
  if String.eqb coord_system "xyz" then
    match as_quaternion_xyz (CameraPose.rotation current_pose) with
    | None => None
    | Some (Raise e) => Some (Raise e)
    | Some (Ok current_quaternion) =>
        match as_quaternion_xyz (CameraPose.rotation ref_pose) with
        | None => None
        | Some (Raise e) => Some (Raise e)
        | Some (Ok ref_quaternion) =>
            Some (divide current_quaternion ref_quaternion)
        end
    end
  else if String.eqb coord_system "frd" then
    match as_quaternion_frd (CameraPose.rotation current_pose),
          as_quaternion_frd (CameraPose.rotation ref_pose) with
    | Some current_quaternion, Some ref_quaternion =>
        Some (divide current_quaternion ref_quaternion)
    | _, _ => None
    end
  else
    Some (Raise (ValueError ("Invalid coordinate system: " ++ coord_system))).

End Pose64.

Module Sample64.

(** The double denoted by [1e-8]. *)
Definition lit_1e_8 : F64.float := S754_finite false 6044629098073146 (-79).



End Sample64.

(* ================================================================= *)
(** ** The range of numpy's int64 *)

Module Int64.

(** An integer that fits [int64]: a list of such integers becomes an
    [int64] array, on which [np.diff] subtracts as [Utils.np_diff] does. *)
Definition in_range (z : Z) : Prop := (- 2 ^ 63 <= z < 2 ^ 63)%Z.

End Int64.

(* ================================================================= *)
(** * Properties *)

(** ** Lists: sorting, adjacent pairs *)

Section ListFacts.
Import Utils.

Lemma insert_length (t : Z) (l : list Z) :
  List.length (insert t l) = S (List.length l).
Proof.
  induction l as [|h tl IH]; simpl; [reflexivity|].
  destruct (t <=? h)%Z; simpl; [reflexivity | now rewrite IH].
Qed.

Lemma sorted_length (l : list Z) : List.length (sorted l) = List.length l.
Proof.
  induction l as [|h tl IH]; simpl; [reflexivity|].
  now rewrite insert_length, IH.
Qed.

Lemma insert_perm (t : Z) (l : list Z) : Permutation (insert t l) (t :: l).
Proof.
  induction l as [|h tl IH]; simpl; [apply Permutation_refl|].
  destruct (t <=? h)%Z; [apply Permutation_refl|].
  eapply perm_trans; [apply perm_skip, IH | apply perm_swap].
Qed.

(** [sorted] keeps every timestamp, duplicates included. *)
Lemma sorted_perm (l : list Z) : Permutation (sorted l) l.
Proof.
  induction l as [|h tl IH]; simpl; [constructor|].
  eapply perm_trans; [apply insert_perm | now apply perm_skip].
Qed.

Lemma insert_HdRel (h t : Z) (l : list Z) :
  (h <= t)%Z -> HdRel Z.le h l -> HdRel Z.le h (insert t l).
Proof.
  intros Hht Hl. destruct l as [|x l]; simpl; [now constructor|].
  destruct (t <=? x)%Z; constructor; [assumption|].
  now inversion Hl.
Qed.

Lemma insert_Sorted (t : Z) (l : list Z) :
  Sorted Z.le l -> Sorted Z.le (insert t l).
Proof.
  induction 1 as [|h tl Hs IH Hh]; simpl.
  - repeat constructor.
  - destruct (Z.leb_spec t h) as [Hle|Hgt].
    + repeat constructor; assumption.
    + constructor; [assumption|]. apply insert_HdRel; [lia | assumption].
Qed.

(** [sorted] returns an ascending list. *)
Lemma sorted_Sorted (l : list Z) : Sorted Z.le (sorted l).
Proof.
  induction l as [|h tl IH]; simpl; [constructor | now apply insert_Sorted].
Qed.

(** [sorted] leaves an ascending list as it is. *)
Lemma sorted_of_Sorted (l : list Z) : Sorted Z.le l -> sorted l = l.
Proof.
  induction 1 as [|h tl Hs IH Hh]; simpl; [reflexivity|].
  rewrite IH. destruct Hh as [|x tl Hhx]; simpl; [reflexivity|].
  destruct (Z.leb_spec h x); [reflexivity | lia].
Qed.

Lemma np_diff_length (a : list Z) :
  List.length (np_diff a) = pred (List.length a).
Proof.
  induction a as [|x [|y tl] IH]; try reflexivity.
  change (np_diff (x :: y :: tl)) with (wrap64 (y - x) :: np_diff (y :: tl)).
  simpl List.length in *. now rewrite IH.
Qed.

Lemma adjacent_length {A : Type} (l : list A) :
  List.length (combine (removelast l) (tl l)) = pred (List.length l).
Proof.
  induction l as [|x [|y tl] IH]; try reflexivity.
  change (combine (removelast (x :: y :: tl)) (List.tl (x :: y :: tl)))
    with ((x, y) :: combine (removelast (y :: tl)) (List.tl (y :: tl))).
  simpl List.length in *. now rewrite IH.
Qed.

Lemma nth_error_adjacent {A : Type} (l : list A) (i : nat) (a b : A) :
  nth_error l i = Some a -> nth_error l (S i) = Some b ->
  nth_error (combine (removelast l) (tl l)) i = Some (a, b).
Proof.
  revert i; induction l as [|x [|y tl] IH]; intros i Ha Hb.
  - destruct i; discriminate.
  - destruct i; discriminate.
  - change (combine (removelast (x :: y :: tl)) (List.tl (x :: y :: tl)))
      with ((x, y) :: combine (removelast (y :: tl)) (List.tl (y :: tl))).
    destruct i as [|i]; simpl in Ha, Hb.
    + now inversion Ha; inversion Hb.
    + simpl. now apply IH.
Qed.

Lemma nth_error_np_diff (a : list Z) (i : nat) (x y : Z) :
  nth_error a i = Some x -> nth_error a (S i) = Some y ->
  nth_error (np_diff a) i = Some (wrap64 (y - x)).
Proof.
  revert i; induction a as [|u [|v tl] IH]; intros i Hx Hy.
  - destruct i; discriminate.
  - destruct i; discriminate.
  - change (np_diff (u :: v :: tl)) with (wrap64 (v - u) :: np_diff (v :: tl)).
    destruct i as [|i]; simpl in Hx, Hy.
    + now inversion Hx; inversion Hy.
    + simpl. now apply IH.
Qed.

Lemma nth_error_zip {A B : Type} (l : list A) (l' : list B) (i : nat)
      (a : A) (b : B) :
  nth_error l i = Some a -> nth_error l' i = Some b ->
  nth_error (combine l l') i = Some (a, b).
Proof.
  revert l' i; induction l as [|x l IH]; intros [|y l'] [|i] Ha Hb;
    try discriminate; simpl in *.
  - now inversion Ha; inversion Hb.
  - now apply IH.
Qed.

End ListFacts.

(** ** Doubles: the substitution of the default speed *)

Section FloatFacts.
Import Utils Spec.

(** The two literals are the correctly rounded quotients [1 / 10^9] and
    [36 / 10]. *)
Lemma lit_1e_9_rounded :
  F64.lit_1e_9 = F64.div (F64.of_int 1) (F64.of_int 1000000000).
Proof. reflexivity. Qed.

Lemma lit_3_6_rounded :
  F64.lit_3_6 = F64.div (F64.of_int 36) (F64.of_int 10).
Proof. reflexivity. Qed.

Lemma of_int_0 : F64.of_int 0 = F64.zero.
Proof. reflexivity. Qed.

Lemma of_int_60 : F64.of_int DEFAULT_SPEED = sixty.
Proof. reflexivity. Qed.

(** The two masked assignments amount to one pass of [substitute]. *)
Lemma fill_default_substitute (raw : list F64.float) :
  fill_default raw = map substitute raw.
Proof.
  unfold fill_default, mask_assign. rewrite map_map.
  apply map_ext. intros [s|s| |s m e]; try destruct s; reflexivity.
Qed.

Lemma substitute_regular (v : F64.float) :
  regular (PyFloat (substitute v)) = true.
Proof. destruct v as [s|s| |s m e]; reflexivity. Qed.

(** A zero displacement gives a velocity that is substituted, whatever the
    elapsed time. *)
Lemma zero_displacement_substituted (dt : F64.float) :
  substitute (F64.mul (F64.div (F64.of_int 0) dt) F64.lit_3_6) = sixty.
Proof. destruct dt as [s|s| |s m e]; try destruct s; reflexivity. Qed.

(** A zero elapsed time gives a velocity that is substituted, whatever the
    displacement. *)
Lemma zero_elapsed_substituted (d : F64.float) :
  substitute
    (F64.mul (F64.div d (F64.mul (F64.of_int (wrap64 0)) F64.lit_1e_9))
             F64.lit_3_6) = sixty.
Proof. destruct d as [s|s| |s m e]; try destruct s; reflexivity. Qed.

(** So does a displacement that is zero or NaN, whatever the elapsed time. *)
Lemma still_displacement_substituted (d dt : F64.float) :
  F64.iszero d || F64.isnan d = true ->
  substitute (F64.mul (F64.div d dt) F64.lit_3_6) = sixty.
Proof.
  destruct d as [s|s| |s m e]; try discriminate; intros _;
    destruct dt as [s'|s'| |s' m' e']; try destruct s; try destruct s';
      reflexivity.
Qed.

End FloatFacts.

(** ** The velocity estimator *)

Section EstimatorFacts.
Import Py Utils Spec.

Variable pose_file : string -> Z -> option (CameraPose.t F64.float).
Variable translation_norm :
  CameraPose.t F64.float -> CameraPose.t F64.float -> F64.float.

Lemma poses_length (recording : string) (timestamps : list Z) :
  List.length (poses pose_file recording timestamps) = List.length timestamps.
Proof. unfold poses. now rewrite length_map, sorted_length. Qed.

Lemma displacements_length (ps : list (option (CameraPose.t F64.float))) :
  List.length (displacements translation_norm ps) = pred (List.length ps).
Proof. unfold displacements. now rewrite length_map, adjacent_length. Qed.

Lemma time_diff_length (timestamps : list Z) :
  List.length (time_diff timestamps) = pred (List.length timestamps).
Proof. unfold time_diff. now rewrite length_map, np_diff_length. Qed.

(** The division never meets operands of different shapes. *)
Lemma raw_velocities_ok (recording : string) (timestamps : list Z) :
  raw_velocities_km_per_h pose_file translation_norm recording timestamps =
  Ok (map (fun v => F64.mul v F64.lit_3_6)
          (map (fun p => F64.div (fst p) (snd p))
               (combine (displacements translation_norm
                           (poses pose_file recording timestamps))
                        (time_diff timestamps)))).
Proof.
  unfold raw_velocities_km_per_h, np_elementwise.
  rewrite displacements_length, poses_length, time_diff_length.
  now rewrite Nat.eqb_refl.
Qed.

Lemma raw_velocities_length (recording : string) (timestamps : list Z)
      (raw : list F64.float) :
  raw_velocities_km_per_h pose_file translation_norm recording timestamps = Ok raw ->
  List.length raw = pred (List.length timestamps).
Proof.
  rewrite raw_velocities_ok. intros H; inversion H; subst; clear H.
  rewrite !length_map, length_combine, displacements_length, poses_length,
    time_diff_length.
  apply Nat.min_id.
Qed.

(** The velocity of interval [i] is built from the poses of the sorted
    timestamps [i], [i+1] and from the input timestamps [i], [i+1]. *)
Lemma raw_velocities_nth (recording : string) (timestamps : list Z)
      (raw : list F64.float) (i : nat)
      (p q : option (CameraPose.t F64.float)) (t u : Z) :
  raw_velocities_km_per_h pose_file translation_norm recording timestamps = Ok raw ->
  nth_error (poses pose_file recording timestamps) i = Some p ->
  nth_error (poses pose_file recording timestamps) (S i) = Some q ->
  nth_error timestamps i = Some t ->
  nth_error timestamps (S i) = Some u ->
  nth_error raw i =
  Some (interval_velocity translation_norm (p, q) (wrap64 (u - t))).
Proof.
  rewrite raw_velocities_ok. intros H Hp Hq Ht Hu.
  inversion H; subst; clear H.
  rewrite map_map. unfold interval_velocity.
  apply (map_nth_error
           (fun x => F64.mul (F64.div (fst x) (snd x)) F64.lit_3_6) i
           (combine _ _)
           (d := (displacement translation_norm (p, q),
                  F64.mul (F64.of_int (wrap64 (u - t))) F64.lit_1e_9))).
  apply nth_error_zip.
  - unfold displacements. apply map_nth_error.
    now apply nth_error_adjacent.
  - unfold time_diff.
    apply (map_nth_error (fun d => F64.mul (F64.of_int d) F64.lit_1e_9)).
    now apply nth_error_np_diff.
Qed.

(** For two or more timestamps the estimator returns: the first filled
    velocity, then all filled velocities. *)
Lemma velocities_ok (recording : string) (timestamps : list Z) :
  (2 <= List.length timestamps)%nat ->
  exists raw first,
    raw_velocities_km_per_h pose_file translation_norm recording timestamps = Ok raw /\
    hd_error (fill_default raw) = Some first /\
    compute_camera_motion_velocities pose_file translation_norm
      recording timestamps =
    Ok (PyFloat first :: map PyFloat (fill_default raw)).
Proof.
  intros HN.
  destruct (raw_velocities_km_per_h pose_file translation_norm recording timestamps) as [raw|e] eqn:Hraw;
    [|rewrite raw_velocities_ok in Hraw; discriminate].
  pose proof (raw_velocities_length _ _ Hraw) as Hlen.
  destruct raw as [|v raw]; [simpl in Hlen; lia|].
  exists (v :: raw), (substitute v). split; [reflexivity|].
  rewrite fill_default_substitute. split; [reflexivity|].
  unfold compute_camera_motion_velocities.
  destruct (Nat.eqb_spec (List.length timestamps) 1) as [E|_]; [lia|].
  rewrite Hraw. cbn [bind]. rewrite fill_default_substitute. reflexivity.
Qed.

(** On an ascending input the elapsed times are those of the sorted pairs. *)
Lemma time_diff_of_ascending_input (timestamps : list Z) :
  Sorted Z.le timestamps ->
  time_diff timestamps = sorted_pair_elapsed timestamps.
Proof.
  intros Hs. unfold time_diff, sorted_pair_elapsed.
  now rewrite (sorted_of_Sorted Hs).
Qed.

(** With two or more timestamps there are as many velocities as timestamps. *)
Lemma velocities_length (recording : string) (timestamps : list Z) :
  (2 <= List.length timestamps)%nat ->
  exists out,
    compute_camera_motion_velocities pose_file translation_norm
      recording timestamps = Ok out /\
    List.length out = List.length timestamps.
Proof.
  intros HN.
  destruct (velocities_ok recording timestamps HN)
    as (raw & first & Hraw & _ & Hout).
  pose proof (raw_velocities_length _ _ Hraw) as Hlen.
  eexists. split; [exact Hout|].
  simpl. rewrite length_map, fill_default_substitute, length_map. lia.
Qed.

End EstimatorFacts.

(** ** Quaternions and rotation matrices *)

Section QuaternionFacts.
Import Py Np Quaternion.
Local Open Scope R_scope.

Lemma qnorm_one : qnorm one = 1.
Proof. unfold qnorm, one; cbn [w x y z]. ring. Qed.

(** The norm is multiplicative. *)
Lemma qnorm_qmul (p q : quaternion) : qnorm (qmul p q) = qnorm p * qnorm q.
Proof. unfold qnorm, qmul; cbn [w x y z]. ring. Qed.

Lemma QUATERNION_EPS_pos : 0 < QUATERNION_EPS.
Proof.
  unfold QUATERNION_EPS. apply Rdiv_lt_0_compat; [lra|].
  apply pow_lt. lra.
Qed.

Lemma sin_cos_squares (a : R) : sin a * sin a + cos a * cos a = 1.
Proof. exact (sin2_cos2 a). Qed.

(** A rotation vector always yields a unit quaternion. *)
Lemma qnorm_from_rotation_vector (rot : vec3) :
  qnorm (from_rotation_vector rot) = 1.
Proof.
  destruct rot as [[a b] c]. unfold from_rotation_vector, qexp.
  cbn [w x y z].
  set (s := a / 2 * (a / 2) + b / 2 * (b / 2) + c / 2 * (c / 2)).
  pose proof QUATERNION_EPS_pos as Heps.
  destruct (Rlt_dec QUATERNION_EPS (sqrt s)) as [Hbig|Hsmall].
  - assert (Hs : 0 <= s) by (unfold s; nra).
    pose proof (sqrt_sqrt s Hs) as Hv.
    pose proof (sin_cos_squares (sqrt s)) as Htrig.
    set (v := sqrt s) in *.
    assert (Hv0 : v <> 0) by lra.
    unfold qnorm; cbn [w x y z]. rewrite exp_0.
    replace (1 * cos v * (1 * cos v) +
             1 * (sin v / v) * (a / 2) * (1 * (sin v / v) * (a / 2)) +
             1 * (sin v / v) * (b / 2) * (1 * (sin v / v) * (b / 2)) +
             1 * (sin v / v) * (c / 2) * (1 * (sin v / v) * (c / 2)))
      with (cos v * cos v + sin v * sin v * (s / (v * v))) by
        (unfold s; field; exact Hv0).
    rewrite <- Hv. replace (v * v / (v * v)) with 1 by (field; exact Hv0).
    lra.
  - unfold qnorm; cbn [w x y z]. rewrite exp_0. ring.
Qed.

(** The zero rotation vector yields the identity quaternion. *)
Lemma from_rotation_vector_zero (a b c : R) :
  a = 0 -> b = 0 -> c = 0 -> from_rotation_vector (a, b, c) = one.
Proof.
  intros -> -> ->. unfold from_rotation_vector, qexp. cbn [w x y z].
  replace (0 / 2 * (0 / 2) + 0 / 2 * (0 / 2) + 0 / 2 * (0 / 2)) with 0
    by field.
  rewrite sqrt_0.
  pose proof QUATERNION_EPS_pos as Heps.
  destruct (Rlt_dec QUATERNION_EPS 0) as [Hlt|_]; [lra|].
  now rewrite exp_0.
Qed.

(** A unit quaternion has a rotation matrix. *)
Lemma as_rotation_matrix_unit (q : quaternion) :
  qnorm q = 1 -> exists m, as_rotation_matrix q = Ok m.
Proof.
  intros Hq. unfold as_rotation_matrix. cbv zeta. rewrite Hq.
  destruct (Req_dec_T 1 0) as [H|_]; [lra|].
  destruct (Rlt_dec (Rabs (1 - 1)) eps); eexists; reflexivity.
Qed.

(** A quaternion divided by itself is the identity. *)
Lemma qdiv_self (q : quaternion) : qnorm q <> 0 -> qdiv q q = one.
Proof.
  intros Hq. unfold qdiv, one. cbv zeta. unfold qnorm in *.
  f_equal; field; exact Hq.
Qed.

Lemma qnorm_scalar_div_unit (q : quaternion) :
  qnorm q = 1 -> qnorm (scalar_div 1 q) = 1.
Proof.
  intros Hq. unfold scalar_div. cbv zeta. rewrite Hq.
  unfold qnorm in *; cbn [w x y z].
  replace (1 * w q / 1 * (1 * w q / 1) + - (1) * x q / 1 * (- (1) * x q / 1) +
           - (1) * y q / 1 * (- (1) * y q / 1) +
           - (1) * z q / 1 * (- (1) * z q / 1))
    with (w q * w q + x q * x q + y q * y q + z q * z q) by field.
  exact Hq.
Qed.

End QuaternionFacts.

(** ** Euler rotations *)

(** Unfolds the vector and matrix operations, and nothing below them. *)
Ltac np_unfold :=
  cbv beta iota zeta delta
      [Np.matvec Np.mscale Np.matmul Np.col Np.scale Np.dot Np.vsub Np.vdiv
       fst snd].

Section EulerFacts.
Import Py Np Quaternion.
Local Open Scope R_scope.

(** The world-relative quaternion of any rotation exists and has norm 1. *)
Lemma as_quaternion_xyz_unit (self : EulerRotation.t R) :
  exists q, EulerRotation.as_quaternion_xyz self = Ok q /\ qnorm q = 1.
Proof.
  unfold EulerRotation.as_quaternion_xyz. cbv zeta.
  destruct (as_rotation_matrix_unit
              (qnorm_from_rotation_vector
                 (scale (EulerRotation.yaw self) (0, 1, 0)))) as [yaw_m ->].
  cbn [bind].
  destruct (as_rotation_matrix_unit
              (qnorm_from_rotation_vector
                 (matvec (mscale (EulerRotation.pitch self) yaw_m) (1, 0, 0))))
    as [pitch_m ->].
  cbn [bind]. eexists. split; [reflexivity|].
  rewrite !qnorm_qmul, !qnorm_from_rotation_vector. ring.
Qed.

Lemma pitch_vector_zero (m : mat3) :
  from_rotation_vector (matvec (mscale 0 m) (1, 0, 0)) = one.
Proof.
  destruct m as [[[[a0 a1] a2] [[b0 b1] b2]] [[c0 c1] c2]].
  np_unfold. apply from_rotation_vector_zero; ring.
Qed.

Lemma roll_vector_zero (m n : mat3) :
  from_rotation_vector (matvec (matmul (mscale 0 m) n) (0, 0, 1)) = one.
Proof.
  destruct m as [[[[a0 a1] a2] [[b0 b1] b2]] [[c0 c1] c2]].
  destruct n as [[[[d0 d1] d2] [[e0 e1] e2]] [[f0 f1] f2]].
  np_unfold. apply from_rotation_vector_zero; ring.
Qed.

(** With the three angles at zero it is the identity. *)
Lemma as_quaternion_xyz_zero (self : EulerRotation.t R) :
  EulerRotation.yaw self = 0 -> EulerRotation.pitch self = 0 ->
  EulerRotation.roll self = 0 ->
  EulerRotation.as_quaternion_xyz self = Ok one.
Proof.
  intros Hyaw Hpitch Hroll.
  unfold EulerRotation.as_quaternion_xyz. cbv zeta.
  rewrite Hyaw, Hpitch, Hroll.
  assert (Hyq : from_rotation_vector (scale 0 (0, 1, 0)) = one).
  { np_unfold. apply from_rotation_vector_zero; ring. }
  rewrite Hyq.
  destruct (as_rotation_matrix_unit qnorm_one) as [m Hm]. rewrite Hm.
  cbn [bind]. rewrite pitch_vector_zero, Hm. cbn [bind].
  rewrite roll_vector_zero. f_equal.
  unfold qmul, one; cbn [w x y z]. f_equal; ring.
Qed.

(** The body-frame quaternion of any rotation has norm 1. *)
Lemma qnorm_as_quaternion_frd (self : EulerRotation.t R) :
  qnorm (EulerRotation.as_quaternion_frd self) = 1.
Proof.
  unfold EulerRotation.as_quaternion_frd. cbv zeta.
  unfold qnorm; cbn [w x y z].
  pose proof (sin_cos_squares (EulerRotation.roll self / 2)) as Hr.
  pose proof (sin_cos_squares (EulerRotation.pitch self / 2)) as Hp.
  pose proof (sin_cos_squares (EulerRotation.yaw self / 2)) as Hy.
  set (cr := cos (EulerRotation.roll self / 2)) in *.
  set (sr := sin (EulerRotation.roll self / 2)) in *.
  set (cp := cos (EulerRotation.pitch self / 2)) in *.
  set (sp := sin (EulerRotation.pitch self / 2)) in *.
  set (cy := cos (EulerRotation.yaw self / 2)) in *.
  set (sy := sin (EulerRotation.yaw self / 2)) in *.
  transitivity ((sr * sr + cr * cr) * (sp * sp + cp * cp) * (sy * sy + cy * cy)).
  - ring.
  - rewrite Hr, Hp, Hy. ring.
Qed.

Lemma radians_0 : radians 0 = 0.
Proof. unfold radians. ring. Qed.

Lemma norm_forward : norm (0, 0, 1) = 1.
Proof.
  unfold norm, dot.
  replace (0 * 0 + 0 * 0 + 1 * 1) with 1 by ring. apply sqrt_1.
Qed.

Lemma arctan2_0_1 : arctan2 0 1 = 0.
Proof.
  unfold arctan2. destruct (Rlt_dec 0 1) as [_|H]; [|lra].
  replace (0 / 1) with 0 by field. apply atan_0.
Qed.

End EulerFacts.

(** ** Claims on the velocity estimator *)

Import Py.

(** C1 (the code departs from the claim).  The claim pairs each displacement
    with the elapsed time of the same two sorted timestamps.  The code sorts
    the timestamps for the poses only; [time_diff] is taken from the list as
    it was passed.  On the timestamps 200, 100, in this order, the poses are
    those of 100 and 200, the elapsed time the claim describes is [1e-7]
    seconds, the elapsed time the code divides by is [-1e-7] seconds, and
    one meter of displacement comes out as -36000000 km/h. *)
Theorem elapsed_time_taken_from_unsorted_input :
  Utils.sorted [200; 100]%Z = [100; 200]%Z /\
  Utils.poses Sample.every_pose "rec" [200; 100]%Z
  = [Sample.every_pose "rec" 100%Z; Sample.every_pose "rec" 200%Z] /\
  Utils.sorted_pair_elapsed [200; 100]%Z = [Sample.plus_1e_7] /\
  Utils.time_diff [200; 100]%Z = [Sample.minus_1e_7] /\
  Utils.compute_camera_motion_velocities
    Sample.every_pose Sample.one_meter "rec" [200; 100]%Z
  = Ok [PyFloat Sample.minus_36e6; PyFloat Sample.minus_36e6].
Proof. repeat split; vm_compute; reflexivity. Qed.

(** C3: with two or more timestamps, every computed velocity that is exactly
    zero or not finite is replaced by the default speed 60 and the others
    are kept, so that no returned element is NaN, infinite or zero.  An
    interval with a missing pose always gets the default speed; so does an
    interval whose two timestamps are equal, be it two neighbours of the
    input (their elapsed time is zero) or two neighbours of the sorted
    sequence (they load the same pose, which is at no distance from
    itself). *)
Theorem default_speed_substitution
        (pose_file : string -> Z -> option (CameraPose.t F64.float))
        (translation_norm :
           CameraPose.t F64.float -> CameraPose.t F64.float -> F64.float)
        (recording : string) (timestamps : list Z) :
  (2 <= List.length timestamps)%nat ->
  exists raw first,
    Utils.raw_velocities_km_per_h pose_file translation_norm
      recording timestamps = Ok raw /\
    hd_error (map Spec.substitute raw) = Some first /\
    Utils.compute_camera_motion_velocities pose_file translation_norm
      recording timestamps
    = Ok (PyFloat first :: map PyFloat (map Spec.substitute raw)) /\
    Forall (fun v => Spec.regular v = true)
           (PyFloat first :: map PyFloat (map Spec.substitute raw)) /\
    (forall i p q,
        nth_error (Utils.poses pose_file recording timestamps) i = Some p ->
        nth_error (Utils.poses pose_file recording timestamps) (S i) = Some q ->
        p = None \/ q = None ->
        nth_error (map Spec.substitute raw) i = Some Spec.sixty) /\
    (forall i t,
        nth_error timestamps i = Some t ->
        nth_error timestamps (S i) = Some t ->
        nth_error (map Spec.substitute raw) i = Some Spec.sixty) /\
    (Spec.still translation_norm ->
     forall i t,
       nth_error (Utils.sorted timestamps) i = Some t ->
       nth_error (Utils.sorted timestamps) (S i) = Some t ->
       nth_error (map Spec.substitute raw) i = Some Spec.sixty).
Proof.
  intros HN.
  destruct (velocities_ok pose_file translation_norm recording timestamps HN)
    as (raw & first & Hraw & Hfirst & Hout).
  rewrite fill_default_substitute in Hfirst, Hout.
  exists raw, first. repeat split; try assumption.
  - constructor.
    + destruct raw as [|v raw]; [discriminate|].
      simpl in Hfirst. inversion Hfirst. apply substitute_regular.
    + rewrite Forall_forall. intros v Hv.
      apply in_map_iff in Hv. destruct Hv as (f & <- & Hf).
      apply in_map_iff in Hf. destruct Hf as (r & <- & _).
      apply substitute_regular.
  - intros i p q Hp Hq Hmissing.
    assert (Hlt : (S i < List.length timestamps)%nat).
    { rewrite <- (poses_length pose_file recording timestamps).
      apply nth_error_Some. congruence. }
    destruct (nth_error timestamps i) as [t|] eqn:Ht;
      [|apply nth_error_None in Ht; lia].
    destruct (nth_error timestamps (S i)) as [u|] eqn:Hu;
      [|apply nth_error_None in Hu; lia].
    rewrite (map_nth_error Spec.substitute i raw
               (raw_velocities_nth _ _ _ _ _ Hraw Hp Hq Ht Hu)).
    f_equal. unfold Spec.interval_velocity.
    replace (Utils.displacement translation_norm (p, q)) with (F64.of_int 0).
    + apply zero_displacement_substituted.
    + destruct Hmissing as [-> | ->]; [reflexivity|].
      destruct p; reflexivity.
  - intros i t Ht Hu.
    assert (Hlt : (S i < List.length timestamps)%nat).
    { apply nth_error_Some. congruence. }
    rewrite <- (poses_length pose_file recording timestamps) in Hlt.
    destruct (nth_error (Utils.poses pose_file recording timestamps) i)
      as [p|] eqn:Hp; [|apply nth_error_None in Hp; lia].
    destruct (nth_error (Utils.poses pose_file recording timestamps) (S i))
      as [q|] eqn:Hq; [|apply nth_error_None in Hq; lia].
    rewrite (map_nth_error Spec.substitute i raw
               (raw_velocities_nth _ _ _ _ _ Hraw Hp Hq Ht Hu)).
    f_equal. unfold Spec.interval_velocity. rewrite Z.sub_diag.
    apply zero_elapsed_substituted.
  - intros Hstill i t Hi HSi.
    assert (Hlt : (S i < List.length timestamps)%nat).
    { rewrite <- (sorted_length timestamps). apply nth_error_Some. congruence. }
    destruct (nth_error timestamps i) as [u|] eqn:Hu;
      [|apply nth_error_None in Hu; lia].
    destruct (nth_error timestamps (S i)) as [v|] eqn:Hv;
      [|apply nth_error_None in Hv; lia].
    pose proof (map_nth_error (pose_file recording) i _ Hi) as Hp.
    pose proof (map_nth_error (pose_file recording) (S i) _ HSi) as Hq.
    rewrite (map_nth_error Spec.substitute i raw
               (raw_velocities_nth _ _ _ _ _ Hraw Hp Hq Hu Hv)).
    f_equal. unfold Spec.interval_velocity.
    apply still_displacement_substituted.
    unfold Utils.displacement.
    destruct (pose_file recording t) as [pose|]; [apply Hstill | reflexivity].
Qed.

(** A displacement that is always zero is [still]. *)
Example at_rest_still : Spec.still Sample.at_rest.
Proof. intros pose. reflexivity. Qed.

(** The substitution at work: two equal timestamps and no pose file. *)
Lemma default_speed_substitution_witness :
  (2 <= List.length [100; 100]%Z)%nat /\
  exists out,
    Utils.compute_camera_motion_velocities
      Sample.no_pose Sample.one_meter "rec" [100; 100]%Z = Ok out /\
    Forall (fun v => Spec.regular v = true) out.
Proof.
  assert (HN : (2 <= List.length [100; 100]%Z)%nat) by (simpl; lia).
  split; [exact HN|].
  destruct (default_speed_substitution
              Sample.no_pose Sample.one_meter "rec" [100; 100]%Z HN)
    as (raw & first & _ & _ & Hout & Hreg & _).
  eexists. split; [exact Hout | exact Hreg].
Defined.

(** C5: with N >= 2 timestamps the estimator returns exactly N elements:
    the first of the N-1 computed velocities, then the N-1 computed
    velocities in their order. *)
Theorem velocities_output_alignment
        (pose_file : string -> Z -> option (CameraPose.t F64.float))
        (translation_norm :
           CameraPose.t F64.float -> CameraPose.t F64.float -> F64.float)
        (recording : string) (timestamps : list Z) :
  (2 <= List.length timestamps)%nat ->
  exists raw first out,
    Utils.raw_velocities_km_per_h pose_file translation_norm
      recording timestamps = Ok raw /\
    List.length (Utils.fill_default raw) = (List.length timestamps - 1)%nat /\
    hd_error (Utils.fill_default raw) = Some first /\
    Utils.compute_camera_motion_velocities pose_file translation_norm
      recording timestamps = Ok out /\
    out = PyFloat first :: map PyFloat (Utils.fill_default raw) /\
    List.length out = List.length timestamps.
Proof.
  intros HN.
  destruct (velocities_ok pose_file translation_norm recording timestamps HN)
    as (raw & first & Hraw & Hfirst & Hout).
  pose proof (raw_velocities_length _ _ _ _ Hraw) as Hlen.
  assert (Hfill : List.length (Utils.fill_default raw)
                  = (List.length timestamps - 1)%nat).
  { rewrite fill_default_substitute, length_map. lia. }
  exists raw, first, (PyFloat first :: map PyFloat (Utils.fill_default raw)).
  repeat split; try assumption.
  simpl. rewrite length_map, Hfill. lia.
Qed.

(** Three timestamps give three velocities. *)
Lemma velocities_output_alignment_witness :
  (2 <= List.length [100; 200; 300]%Z)%nat /\
  exists out,
    Utils.compute_camera_motion_velocities
      Sample.every_pose Sample.one_meter "rec" [100; 200; 300]%Z = Ok out /\
    List.length out = 3%nat.
Proof.
  assert (HN : (2 <= List.length [100; 200; 300]%Z)%nat) by (simpl; lia).
  split; [exact HN|].
  destruct (velocities_output_alignment
              Sample.every_pose Sample.one_meter "rec" [100; 200; 300]%Z HN)
    as (raw & first & out & _ & _ & _ & Hout & _ & Hlen).
  exists out. split; [exact Hout | exact Hlen].
Defined.

(** C6: on a single timestamp the estimator returns the one-element list
    holding the default speed, which equals [[60.0]]; so it does on the
    recording "rec" and the timestamp 100. *)
Theorem single_timestamp_default_speed
        (pose_file : string -> Z -> option (CameraPose.t F64.float))
        (translation_norm :
           CameraPose.t F64.float -> CameraPose.t F64.float -> F64.float)
        (recording : string) (timestamp : Z) :
  (exists out,
      Utils.compute_camera_motion_velocities pose_file translation_norm
        recording [timestamp] = Ok out /\
      out = [PyInt Utils.DEFAULT_SPEED] /\
      pylist_eqb out [PyFloat Spec.sixty] = true) /\
  (exists out,
      Utils.compute_camera_motion_velocities pose_file translation_norm
        "rec" [100%Z] = Ok out /\
      pylist_eqb out [PyFloat Spec.sixty] = true).
Proof.
  split; eexists; repeat split; reflexivity.
Qed.

(** C10: on the empty list the estimator raises the [IndexError] of
    indexing an empty array and returns no list; it returns as many
    velocities as it was given timestamps exactly when there is at least
    one timestamp. *)
Theorem empty_timestamps_raise
        (pose_file : string -> Z -> option (CameraPose.t F64.float))
        (translation_norm :
           CameraPose.t F64.float -> CameraPose.t F64.float -> F64.float)
        (recording : string) (timestamps : list Z) :
  Utils.compute_camera_motion_velocities pose_file translation_norm
    recording [] = Raise (IndexError Spec.empty_index_message) /\
  Utils.compute_camera_motion_velocities pose_file translation_norm
    recording [] <> Ok [] /\
  ((exists out,
       Utils.compute_camera_motion_velocities pose_file translation_norm
         recording timestamps = Ok out /\
       List.length out = List.length timestamps)
   <-> (1 <= List.length timestamps)%nat).
Proof.
  split; [reflexivity|]. split; [discriminate|]. split.
  - intros (out & Hout & _). destruct timestamps; [discriminate | simpl; lia].
  - intros HN.
    destruct timestamps as [|t [|u tl]]; [simpl in HN; lia | |].
    + exists [PyInt Utils.DEFAULT_SPEED]. split; reflexivity.
    + apply velocities_length. simpl; lia.
Qed.

(** ** Claims on poses and selectors *)

Local Open Scope string_scope.

(** C9: [is_complete] holds exactly when neither the latitude nor the
    longitude is NaN.  The altitude and the three angles are not read: any
    two poses with the same latitude and longitude get the same answer, and
    a pose whose altitude, yaw, pitch and roll are all NaN is complete as
    soon as its latitude and longitude are not NaN. *)
Theorem is_complete_reads_lat_lon_only
        (lat lon altitude yaw pitch roll : F64.float) :
  let pose :=
    CameraPose.mk (GeoPosition.mk lat lon altitude)
                  (EulerRotation.mk yaw pitch roll) in
  (CameraPose.is_complete pose = true
   <-> F64.isnan lat = false /\ F64.isnan lon = false) /\
  (forall altitude' yaw' pitch' roll',
      CameraPose.is_complete
        (CameraPose.mk (GeoPosition.mk lat lon altitude')
                       (EulerRotation.mk yaw' pitch' roll'))
      = CameraPose.is_complete pose) /\
  CameraPose.is_complete (Sample.nan_elsewhere lat lon)
  = negb (F64.isnan lat) && negb (F64.isnan lon).
Proof.
  unfold CameraPose.is_complete, Sample.nan_elsewhere; simpl.
  repeat split.
  - destruct (F64.isnan lat); [discriminate | reflexivity].
  - destruct (F64.isnan lat), (F64.isnan lon); try discriminate; reflexivity.
  - intros [-> ->]. reflexivity.
  - now rewrite andb_true_r.
Qed.

(** C4: a selector string outside the recognised tags makes the operation
    raise a [ValueError] that quotes the selector; no value is returned.
    [rotation] raises unless the coordinate system is "xyz" or "frd",
    [ImageAnnotations.cables] unless the selector is "visible", "inferred"
    or "all", [LineType.from_selector] unless it is "visible" or "all". *)
Theorem unknown_selector_raises (selector : string) :
  (selector <> "xyz" -> selector <> "frd" ->
   forall ref_pose current_pose as_matrix,
     Pose.rotation ref_pose current_pose selector as_matrix
     = Raise (ValueError ("Invalid coordinate system: " ++ selector))) /\
  (selector <> "visible" -> selector <> "inferred" -> selector <> "all" ->
   forall annotations,
     ImageAnnotations.cables annotations selector
     = Raise (ValueError ("Unknown cable selector '" ++ selector ++ "'"))) /\
  (selector <> "visible" -> selector <> "all" ->
   LineType.from_selector selector
   = Raise (ValueError ("Invalid selector '" ++ selector ++ "'"))).
Proof.
  repeat split.
  - intros Hxyz Hfrd ref_pose current_pose as_matrix. unfold Pose.rotation.
    apply String.eqb_neq in Hxyz, Hfrd. now rewrite Hxyz, Hfrd.
  - intros Hv Hi Ha annotations. unfold ImageAnnotations.cables.
    apply String.eqb_neq in Hv, Hi, Ha. now rewrite Hv, Hi, Ha.
  - intros Hv Ha. unfold LineType.from_selector.
    apply String.eqb_neq in Hv, Ha. now rewrite Hv, Ha.
Qed.

(** C7: the rotation made from 0, 0, 0 degrees has the identity quaternion
    (1, 0, 0, 0) under both conventions. *)
Theorem zero_degrees_identity_quaternion :
  EulerRotation.as_quaternion_xyz (EulerRotation.from_degrees 0 0 0)
  = Ok (Quaternion.mkQ 1 0 0 0) /\
  EulerRotation.as_quaternion_frd (EulerRotation.from_degrees 0 0 0)
  = Quaternion.mkQ 1 0 0 0.
Proof.
  split.
  - apply as_quaternion_xyz_zero; apply radians_0.
  - unfold EulerRotation.as_quaternion_frd, EulerRotation.from_degrees.
    cbn [EulerRotation.yaw EulerRotation.pitch EulerRotation.roll].
    rewrite radians_0. replace (0 / 2)%R with 0%R by field.
    rewrite cos_0, sin_0. f_equal; ring.
Qed.

(** C8: the rotation derived from a nonzero direction has roll 0, and the
    direction (0, 0, 1) gives yaw 0, pitch 0 and roll 0. *)
Theorem direction_gives_zero_roll (direction : Np.vec3) :
  direction <> Np.vzero ->
  EulerRotation.roll (EulerRotation.from_direction_xyz direction) = 0%R /\
  EulerRotation.from_direction_xyz (0, 0, 1)%R = EulerRotation.mk 0%R 0%R 0%R.
Proof.
  intros _. split; [reflexivity|].
  unfold EulerRotation.from_direction_xyz. cbv zeta.
  rewrite norm_forward.
  assert (Hunit : Np.vdiv (0, 0, 1)%R 1%R = (0, 0, 1)%R).
  { np_unfold. repeat f_equal; field. }
  rewrite Hunit.
  assert (Hproj : Np.vsub (0, 0, 1)%R
                    (Np.scale (Np.dot (0, 0, 1)%R (0, 1, 0)%R) (0, 1, 0)%R)
                  = (0, 0, 1)%R).
  { np_unfold. repeat f_equal; ring. }
  rewrite Hproj, norm_forward.
  assert (Hmax : Rmax 1 (1 / 10 ^ 8) = 1%R).
  { apply Rmax_left. lra. }
  rewrite Hmax, Hunit. cbn [fst snd].
  rewrite Ropp_0, arctan2_0_1. reflexivity.
Qed.

(** The forward direction is not the zero vector. *)
Lemma direction_gives_zero_roll_witness :
  (0, 0, 1)%R <> Np.vzero /\
  EulerRotation.roll (EulerRotation.from_direction_xyz (0, 0, 1)%R) = 0%R /\
  EulerRotation.from_direction_xyz (0, 0, 1)%R = EulerRotation.mk 0%R 0%R 0%R.
Proof.
  assert (H : (0, 0, 1)%R <> Np.vzero).
  { unfold Np.vzero. intros E. injection E as E. lra. }
  split; [exact H | exact (direction_gives_zero_roll H)].
Defined.

(** The constants of the binary64 model are the doubles they are meant to
    be: correctly rounded quotients of integers. *)
Lemma binary64_constants :
  D.lit_1e_14 = F64.div (F64.of_int 1) (F64.of_int (10 ^ 14)) /\
  Sample64.lit_1e_8 = F64.div (F64.of_int 1) (F64.of_int (10 ^ 8)) /\
  D.two_pow_m26 = F64.div (F64.of_int 1) (F64.of_int (2 ^ 26)) /\
  D.two_pow_m27 = F64.div (F64.of_int 1) (F64.of_int (2 ^ 27)) /\
  D.epsilon = F64.div (F64.of_int 1) (F64.of_int (2 ^ 52)).
Proof. repeat split; vm_compute; reflexivity. Qed.



(** An unknown tag at work: "hidden" is no coordinate system and no cable
    selector. *)
Lemma unknown_selector_raises_witness :
  Pose.rotation Sample.level Sample.level "hidden" false
  = Raise (ValueError "Invalid coordinate system: hidden") /\
  ImageAnnotations.cables Sample.bare_image "hidden"
  = Raise (ValueError "Unknown cable selector 'hidden'") /\
  LineType.from_selector "hidden"
  = Raise (ValueError "Invalid selector 'hidden'").
Proof.
  destruct (unknown_selector_raises "hidden") as (Hrot & Hcables & Hsel).
  split; [|split].
  - apply Hrot; discriminate.
  - apply Hcables; discriminate.
  - apply Hsel; discriminate.
Defined.

(* ================================================================= *)
(** * Further properties *)

(** ** Rotations between poses *)

Section RotationFacts.
Import Np Quaternion.
Local Open Scope R_scope.

Lemma qnorm_qdiv (p q : quaternion) :
  qnorm q <> 0 -> qnorm (qdiv p q) = qnorm p / qnorm q.
Proof.
  intros Hq. unfold qdiv. cbv zeta. unfold qnorm in *; cbn [w x y z].
  field. exact Hq.
Qed.

(** Dividing by [b] and then multiplying what [b] was divided by cancels. *)
Lemma qdiv_chain (a b c : quaternion) :
  qnorm a <> 0 -> qnorm b <> 0 ->
  qmul (qdiv c b) (qdiv b a) = qdiv c a.
Proof.
  intros Ha Hb. unfold qmul, qdiv. cbv zeta. unfold qnorm in *.
  cbn [w x y z]. f_equal; field; split; assumption.
Qed.

Lemma eps_pos : 0 < eps.
Proof. unfold eps. apply Rdiv_lt_0_compat; [lra | apply pow_lt; lra]. Qed.

(** The rotation matrix of a unit quaternion, in closed form. *)
Lemma as_rotation_matrix_unit_value (q : quaternion) :
  qnorm q = 1 ->
  as_rotation_matrix q =
  Ok ((1 - 2 * (y q * y q + z q * z q),
       2 * (x q * y q - z q * w q),
       2 * (x q * z q + y q * w q)),
      (2 * (x q * y q + z q * w q),
       1 - 2 * (x q * x q + z q * z q),
       2 * (y q * z q - x q * w q)),
      (2 * (x q * z q - y q * w q),
       2 * (y q * z q + x q * w q),
       1 - 2 * (x q * x q + y q * y q))).
Proof.
  intros Hq. unfold as_rotation_matrix. cbv zeta. rewrite Hq.
  destruct (Req_dec_T 1 0) as [H|_]; [lra|].
  destruct (Rlt_dec (Rabs (1 - 1)) eps) as [_|H]; [reflexivity|].
  exfalso. apply H. replace (1 - 1) with 0 by ring. rewrite Rabs_R0.
  apply eps_pos.
Qed.

(** The rotation matrix of a unit quaternion keeps lengths. *)
Lemma as_rotation_matrix_isometry (q : quaternion) (m : mat3) (v : vec3) :
  qnorm q = 1 -> as_rotation_matrix q = Ok m ->
  dot (matvec m v) (matvec m v) = dot v v.
Proof.
  intros Hq. rewrite (as_rotation_matrix_unit_value Hq).
  intros E; inversion E; subst m; clear E.
  destruct v as [[a b] c]. destruct q as [qw qx qy qz].
  unfold qnorm in Hq; cbn [w x y z] in *. np_unfold.
  set (n := qw * qw + qx * qx + qy * qy + qz * qz) in *.
  transitivity (n * n * (a * a + b * b + c * c)); [|rewrite Hq; ring].
  replace (1 - 2 * (qy * qy + qz * qz)) with (n - 2 * (qy * qy + qz * qz)) by lra.
  replace (1 - 2 * (qx * qx + qz * qz)) with (n - 2 * (qx * qx + qz * qz)) by lra.
  replace (1 - 2 * (qx * qx + qy * qy)) with (n - 2 * (qx * qx + qy * qy)) by lra.
  unfold n. ring.
Qed.

Lemma as_rotation_matrix_one : as_rotation_matrix one = Ok Conventions.identity_matrix.
Proof.
  rewrite (as_rotation_matrix_unit_value qnorm_one).
  unfold one, Conventions.identity_matrix; cbn [w x y z].
  apply f_equal. repeat apply f_equal2; ring.
Qed.

(** The matrix to the local tangent plane keeps lengths. *)
Lemma ned_rotation_isometry (origin : GeoPosition.t R) (v : vec3) :
  dot (matvec (Pose.earth_to_ned_local_tangent_plane_rotation origin) v)
      (matvec (Pose.earth_to_ned_local_tangent_plane_rotation origin) v)
  = dot v v.
Proof.
  unfold Pose.earth_to_ned_local_tangent_plane_rotation. cbv zeta.
  pose proof (sin_cos_squares (radians (GeoPosition.lat origin))) as Hphi.
  pose proof (sin_cos_squares (radians (GeoPosition.lon origin))) as Hlam.
  set (sp := sin (radians (GeoPosition.lat origin))) in *.
  set (cp := cos (radians (GeoPosition.lat origin))) in *.
  set (sl := sin (radians (GeoPosition.lon origin))) in *.
  set (cl := cos (radians (GeoPosition.lon origin))) in *.
  destruct v as [[a b] c]. np_unfold.
  nsatz.
Qed.

(** [rotation] divides the orientation of the current pose by that of the
    reference pose. *)
Lemma rotation_by_orientation (ref_pose current_pose : CameraPose.t R)
      (coord_system : string) (as_matrix : bool) :
  Pose.rotation ref_pose current_pose coord_system as_matrix =
  (current_quaternion <- Conventions.orientation coord_system current_pose ;;
   ref_quaternion <- Conventions.orientation coord_system ref_pose ;;
   if as_matrix
   then m <- as_rotation_matrix (qdiv current_quaternion ref_quaternion) ;;
        Ok (Pose.RotMatrix m)
   else Ok (Pose.RotQuaternion (qdiv current_quaternion ref_quaternion))).
Proof.
  unfold Pose.rotation, Conventions.orientation.
  destruct (String.eqb coord_system "xyz").
  - destruct (EulerRotation.as_quaternion_xyz (CameraPose.rotation current_pose));
      [|reflexivity].
    destruct (EulerRotation.as_quaternion_xyz (CameraPose.rotation ref_pose));
      reflexivity.
  - destruct (String.eqb coord_system "frd"); reflexivity.
Qed.

(** Under a known convention every pose has an orientation of norm 1. *)
Lemma orientation_unit (coord_system : string) (pose : CameraPose.t R) :
  Conventions.known coord_system ->
  exists q, Conventions.orientation coord_system pose = Ok q /\ qnorm q = 1.
Proof.
  unfold Conventions.orientation. intros [-> | ->].
  - rewrite String.eqb_refl. apply as_quaternion_xyz_unit.
  - cbn. eexists. split; [reflexivity | apply qnorm_as_quaternion_frd].
Qed.

Lemma orientation_unknown (coord_system : string) (pose : CameraPose.t R) :
  ~ Conventions.known coord_system ->
  Conventions.orientation coord_system pose
  = Raise (ValueError ("Invalid coordinate system: " ++ coord_system)).
Proof.
  unfold Conventions.known, Conventions.orientation. intros Hk.
  destruct (String.eqb_spec coord_system "xyz") as [->|_]; [tauto|].
  destruct (String.eqb_spec coord_system "frd") as [->|_]; [tauto|].
  reflexivity.
Qed.

End RotationFacts.

(** ** Directions and angles *)

Section DirectionFacts.
Import Np.
Local Open Scope R_scope.

Lemma dot_self_pos (v : vec3) : v <> vzero -> 0 < dot v v.
Proof.
  destruct v as [[a b] c]. unfold vzero, dot. intros Hv.
  destruct (Rle_or_lt (a * a + b * b + c * c) 0) as [Hle|Hlt]; [|exact Hlt].
  exfalso. apply Hv.
  assert (a = 0) by nra. assert (b = 0) by nra. assert (c = 0) by nra.
  now subst.
Qed.

Lemma norm_pos (v : vec3) : v <> vzero -> 0 < norm v.
Proof. intros Hv. apply sqrt_lt_R0, dot_self_pos, Hv. Qed.

Lemma norm_scale (k : R) (v : vec3) : 0 <= k -> norm (scale k v) = k * norm v.
Proof.
  intros Hk. destruct v as [[a b] c]. unfold norm, scale, dot.
  replace (k * a * (k * a) + k * b * (k * b) + k * c * (k * c))
    with (k * k * (a * a + b * b + c * c)) by ring.
  rewrite sqrt_mult by nra. now rewrite sqrt_square.
Qed.

Lemma arctan2_right (y x : R) : 0 < x -> arctan2 y x = atan (y / x).
Proof. intros Hx. unfold arctan2. destruct (Rlt_dec 0 x); [reflexivity | lra]. Qed.

(** [arctan2] only sees the direction of its argument. *)
Lemma arctan2_scale (k y x : R) : 0 < k -> arctan2 (k * y) (k * x) = arctan2 y x.
Proof.
  intros Hk. unfold arctan2.
  assert (Hq : x <> 0 -> k * y / (k * x) = y / x) by (intros; field; lra).
  destruct (Rlt_dec 0 x) as [Hx|Hx].
  - destruct (Rlt_dec 0 (k * x)) as [_|H]; [|exfalso; apply H; nra].
    rewrite Hq by lra. reflexivity.
  - destruct (Rlt_dec 0 (k * x)) as [H|_]; [exfalso; nra|].
    destruct (Rlt_dec x 0) as [Hx'|Hx'].
    + destruct (Rlt_dec (k * x) 0) as [_|H]; [|exfalso; apply H; nra].
      rewrite Hq by lra.
      destruct (Rle_dec 0 y), (Rle_dec 0 (k * y)); try reflexivity;
        exfalso; nra.
    + destruct (Rlt_dec (k * x) 0) as [H|_]; [exfalso; nra|].
      destruct (Rlt_dec 0 y), (Rlt_dec 0 (k * y)); try reflexivity;
        try (exfalso; nra).
      destruct (Rlt_dec y 0), (Rlt_dec (k * y) 0); try reflexivity;
        exfalso; nra.
Qed.

Lemma arctan2_bounds (y x : R) : - PI <= arctan2 y x <= PI.
Proof.
  pose proof PI_RGT_0 as Hpi. pose proof (atan_bound (y / x)) as [Hlo Hhi].
  unfold arctan2.
  destruct (Rlt_dec 0 x) as [Hx|Hx]; [lra|].
  destruct (Rlt_dec x 0) as [Hx'|Hx'].
  - destruct (Rle_dec 0 y) as [Hy|Hy].
    + assert (Hq : y / x <= 0).
      { unfold Rdiv. assert (/ x < 0) by now apply Rinv_lt_0_compat. nra. }
      assert (atan (y / x) <= 0).
      { destruct Hq as [Hq|Hq]; [|rewrite Hq, atan_0; lra].
        apply Rlt_le. rewrite <- atan_0. now apply atan_increasing. }
      lra.
    + assert (Hq : 0 < y / x).
      { unfold Rdiv. assert (/ x < 0) by now apply Rinv_lt_0_compat. nra. }
      assert (0 < atan (y / x)).
      { rewrite <- atan_0. now apply atan_increasing. }
      lra.
  - destruct (Rlt_dec 0 y); [lra|]. destruct (Rlt_dec y 0); lra.
Qed.

End DirectionFacts.

(** ** Further properties of common/pose.py *)

(** X1: converting three angles from degrees and back to degrees returns
    them, and so does the conversion from radians to degrees and back. *)
Theorem degrees_round_trip (yaw pitch roll : R) :
  EulerRotation.in_degrees (EulerRotation.from_degrees yaw pitch roll)
  = EulerRotation.mk yaw pitch roll /\
  (let d := EulerRotation.in_degrees (EulerRotation.mk yaw pitch roll) in
   EulerRotation.from_degrees (EulerRotation.yaw d) (EulerRotation.pitch d)
                              (EulerRotation.roll d))
  = EulerRotation.mk yaw pitch roll.
Proof.
  unfold EulerRotation.in_degrees, EulerRotation.from_degrees,
    Np.degrees, Np.radians.
  cbn [EulerRotation.yaw EulerRotation.pitch EulerRotation.roll].
  pose proof PI_neq0 as Hpi. split; apply f_equal3; field; exact Hpi.
Qed.

(** X2: the rotation derived from a direction does not depend on the
    length of the direction: a nonzero direction and any positive multiple
    of it give the same yaw, pitch and roll. *)
Theorem direction_scale_invariant (k : R) (direction : Np.vec3) :
  (0 < k)%R -> direction <> Np.vzero ->
  EulerRotation.from_direction_xyz (Np.scale k direction)
  = EulerRotation.from_direction_xyz direction.
Proof.
  intros Hk Hd.
  assert (Hunit : Np.vdiv (Np.scale k direction)
                          (Np.norm (Np.scale k direction))
                  = Np.vdiv direction (Np.norm direction)).
  { rewrite norm_scale by lra. pose proof (norm_pos Hd) as Hn.
    destruct direction as [[a b] c]. unfold Np.vdiv, Np.scale.
    apply f_equal2; [apply f_equal2|]; field; lra. }
  unfold EulerRotation.from_direction_xyz. cbv zeta. rewrite Hunit.
  reflexivity.
Qed.

(** Twice the forward direction. *)
Lemma direction_scale_invariant_witness :
  EulerRotation.from_direction_xyz (Np.scale 2 (0, 0, 1)%R)
  = EulerRotation.from_direction_xyz (0, 0, 1)%R.
Proof.
  apply direction_scale_invariant; [lra|].
  unfold Np.vzero. intros E. injection E as E. lra.
Defined.

(** X3: for a nonzero direction the pitch lies strictly between -pi/2 and
    pi/2 and the yaw between -pi and pi. *)
Theorem direction_angle_bounds (direction : Np.vec3) :
  direction <> Np.vzero ->
  (- (PI / 2) < EulerRotation.pitch (EulerRotation.from_direction_xyz direction)
   < PI / 2)%R /\
  (- PI <= EulerRotation.yaw (EulerRotation.from_direction_xyz direction)
   <= PI)%R.
Proof.
  intros _. unfold EulerRotation.from_direction_xyz. cbv zeta.
  cbn [EulerRotation.yaw EulerRotation.pitch]. split.
  - rewrite arctan2_right.
    + replace (- (PI / 2))%R with (- PI / 2)%R by field. apply atan_bound.
    + eapply Rlt_le_trans; [|apply Rmax_r].
      apply Rdiv_lt_0_compat; [lra | apply pow_lt; lra].
  - apply arctan2_bounds.
Qed.

Lemma direction_angle_bounds_witness :
  (- (PI / 2)
   < EulerRotation.pitch (EulerRotation.from_direction_xyz (0, 0, 1)%R)
   < PI / 2)%R /\
  (- PI <= EulerRotation.yaw (EulerRotation.from_direction_xyz (0, 0, 1)%R)
   <= PI)%R.
Proof.
  apply direction_angle_bounds.
  unfold Np.vzero. intros E. injection E as E. lra.
Defined.

(** X4: for a direction (dx, dy, dz) that is not within 1e-8 of the
    vertical (its horizontal part is at least 1e-8 of its length), the yaw
    is arctan2(dx, dz) and the pitch is arctan2(-dy, hypot(dx, dz)). *)
Theorem direction_closed_form (dx dy dz : R) :
  (1 / 10 ^ 8 <= sqrt (dx * dx + dz * dz) / Np.norm (dx, dy, dz))%R ->
  EulerRotation.from_direction_xyz (dx, dy, dz)
  = EulerRotation.mk (Np.arctan2 dx dz)
                     (Np.arctan2 (- dy) (sqrt (dx * dx + dz * dz))) 0%R.
Proof.
  intros Hfloor.
  assert (Heps : (0 < 1 / 10 ^ 8)%R)
    by (apply Rdiv_lt_0_compat; [lra | apply pow_lt; lra]).
  set (h := sqrt (dx * dx + dz * dz)) in *.
  set (n := Np.norm (dx, dy, dz)) in *.
  assert (Hn0 : (0 <= n)%R) by apply sqrt_pos.
  assert (Hh0 : (0 <= h)%R) by apply sqrt_pos.
  assert (Hn : (0 < n)%R).
  { destruct Hn0 as [Hn|Hn]; [exact Hn|]. exfalso. rewrite <- Hn in Hfloor.
    unfold Rdiv in Hfloor at 2. rewrite Rinv_0, Rmult_0_r in Hfloor. lra. }
  assert (Hh : (0 < h)%R).
  { destruct Hh0 as [Hh|Hh]; [exact Hh|]. exfalso. rewrite <- Hh in Hfloor.
    unfold Rdiv in Hfloor at 2. rewrite Rmult_0_l in Hfloor. lra. }
  unfold EulerRotation.from_direction_xyz. cbv zeta. fold n.
  assert (Hproj :
            Np.vsub (Np.vdiv (dx, dy, dz) n)
                    (Np.scale (Np.dot (Np.vdiv (dx, dy, dz) n) (0, 1, 0)%R)
                              (0, 1, 0)%R)
            = Np.scale (/ n) (dx, 0, dz)%R).
  { np_unfold. apply f_equal2; [apply f_equal2|]; field; lra. }
  rewrite Hproj, norm_scale by (apply Rlt_le, Rinv_0_lt_compat, Hn).
  assert (Hnorm : Np.norm (dx, 0, dz)%R = h).
  { unfold Np.norm, Np.dot, h. f_equal. ring. }
  rewrite Hnorm.
  assert (Hmax : Rmax (/ n * h) (1 / 10 ^ 8) = (/ n * h)%R).
  { apply Rmax_left. unfold Rdiv in Hfloor at 2. lra. }
  rewrite Hmax. np_unfold. f_equal.
  - replace (/ n * dx / (/ n * h))%R with (/ h * dx)%R by (field; lra).
    replace (/ n * dz / (/ n * h))%R with (/ h * dz)%R by (field; lra).
    apply arctan2_scale, Rinv_0_lt_compat, Hh.
  - replace (- (dy / n))%R with (/ n * - dy)%R by (field; lra).
    apply arctan2_scale, Rinv_0_lt_compat, Hn.
Qed.

(** The forward direction is horizontal. *)
Lemma direction_closed_form_witness :
  EulerRotation.from_direction_xyz (0, 0, 1)%R
  = EulerRotation.mk (Np.arctan2 0 1)
                     (Np.arctan2 (- 0) (sqrt (0 * 0 + 1 * 1))) 0%R.
Proof.
  apply direction_closed_form.
  rewrite norm_forward. replace (0 * 0 + 1 * 1)%R with 1%R by ring.
  rewrite sqrt_1.
  assert (H1 : (1 <= 10 ^ 8)%R) by (apply pow_R1_Rle; lra).
  pose proof (Rinv_le_contravar 1 (10 ^ 8) Rlt_0_1 H1) as H.
  rewrite Rinv_1 in H. unfold Rdiv. rewrite Rinv_1. lra.
Defined.

(** X5: both quaternions of a rotation always exist and have norm 1: the
    world-relative one never raises, whatever the angles. *)
Theorem euler_quaternions_unit (rotation : EulerRotation.t R) :
  (exists q,
      EulerRotation.as_quaternion_xyz rotation = Ok q /\
      Quaternion.qnorm q = 1%R) /\
  Quaternion.qnorm (EulerRotation.as_quaternion_frd rotation) = 1%R.
Proof.
  split; [apply as_quaternion_xyz_unit | apply qnorm_as_quaternion_frd].
Qed.

(** X6: [rotation] returns exactly when the coordinate system is "xyz" or
    "frd".  It then returns a quaternion of norm 1 when [as_matrix] is
    false and a matrix when it is true. *)
Theorem rotation_returns_iff_known
        (ref_pose current_pose : CameraPose.t R)
        (coord_system : string) (as_matrix : bool) :
  (exists r,
      Pose.rotation ref_pose current_pose coord_system as_matrix = Ok r /\
      match r with
      | Pose.RotQuaternion q => as_matrix = false /\ Quaternion.qnorm q = 1%R
      | Pose.RotMatrix _ => as_matrix = true
      end)
  <-> Conventions.known coord_system.
Proof.
  rewrite rotation_by_orientation. split.
  - intros (r & Hr & _).
    destruct (string_dec coord_system "xyz") as [E|Hxyz]; [now left|].
    destruct (string_dec coord_system "frd") as [E|Hfrd]; [now right|].
    rewrite orientation_unknown in Hr by (unfold Conventions.known; tauto).
    discriminate.
  - intros Hk.
    destruct (orientation_unit current_pose Hk) as (c & -> & Hc).
    destruct (orientation_unit ref_pose Hk) as (q & -> & Hq).
    cbn [bind].
    assert (Hn : Quaternion.qnorm (Quaternion.qdiv c q) = 1%R).
    { rewrite qnorm_qdiv by lra. rewrite Hc, Hq. field. }
    destruct as_matrix.
    + destruct (as_rotation_matrix_unit Hn) as [m ->]. cbn [bind].
      eexists. split; reflexivity.
    + eexists. split; [reflexivity|]. split; [reflexivity | exact Hn].
Qed.

(** X7: relative rotations compose: under a known convention, the rotation
    from [a] to [c] is the rotation from [b] to [c] times the rotation from
    [a] to [b]. *)
Theorem rotation_composes (a b c : CameraPose.t R) (coord_system : string) :
  Conventions.known coord_system ->
  exists r_ab r_bc r_ac,
    Pose.rotation a b coord_system false = Ok (Pose.RotQuaternion r_ab) /\
    Pose.rotation b c coord_system false = Ok (Pose.RotQuaternion r_bc) /\
    Pose.rotation a c coord_system false = Ok (Pose.RotQuaternion r_ac) /\
    r_ac = Quaternion.qmul r_bc r_ab.
Proof.
  intros Hk. rewrite !rotation_by_orientation.
  destruct (orientation_unit a Hk) as (qa & -> & Ha).
  destruct (orientation_unit b Hk) as (qb & -> & Hb).
  destruct (orientation_unit c Hk) as (qc & -> & Hc).
  cbn [bind]. do 3 eexists. repeat (split; [reflexivity|]).
  symmetry. apply qdiv_chain; lra.
Qed.

Lemma rotation_composes_witness :
  exists r_ab r_bc r_ac,
    Pose.rotation Sample.level Sample.level "frd" false
    = Ok (Pose.RotQuaternion r_ab) /\
    Pose.rotation Sample.level Sample.level "frd" false
    = Ok (Pose.RotQuaternion r_bc) /\
    Pose.rotation Sample.level Sample.level "frd" false
    = Ok (Pose.RotQuaternion r_ac) /\
    r_ac = Quaternion.qmul r_bc r_ab.
Proof.
  apply rotation_composes. right. reflexivity.
Defined.

(** X8: under a known convention, the rotation from [b] to [a] undoes the
    rotation from [a] to [b]: their product is the identity quaternion. *)
Theorem rotation_swap_inverse (a b : CameraPose.t R) (coord_system : string) :
  Conventions.known coord_system ->
  exists r_ab r_ba,
    Pose.rotation a b coord_system false = Ok (Pose.RotQuaternion r_ab) /\
    Pose.rotation b a coord_system false = Ok (Pose.RotQuaternion r_ba) /\
    Quaternion.qmul r_ba r_ab = Quaternion.one /\
    Quaternion.qmul r_ab r_ba = Quaternion.one.
Proof.
  intros Hk. rewrite !rotation_by_orientation.
  destruct (orientation_unit a Hk) as (qa & -> & Ha).
  destruct (orientation_unit b Hk) as (qb & -> & Hb).
  cbn [bind]. do 2 eexists. repeat (split; [reflexivity|]).
  rewrite !qdiv_chain by lra. rewrite !qdiv_self by lra. split; reflexivity.
Qed.

Lemma rotation_swap_inverse_witness :
  exists r_ab r_ba,
    Pose.rotation Sample.level Sample.level "xyz" false
    = Ok (Pose.RotQuaternion r_ab) /\
    Pose.rotation Sample.level Sample.level "xyz" false
    = Ok (Pose.RotQuaternion r_ba) /\
    Quaternion.qmul r_ba r_ab = Quaternion.one /\
    Quaternion.qmul r_ab r_ba = Quaternion.one.
Proof.
  apply rotation_swap_inverse. left. reflexivity.
Defined.

(** X9: under a known convention and with [as_matrix] set, the rotation of
    a pose relative to itself is the identity matrix; in the "frd"
    convention its quaternion is the identity quaternion. *)
Theorem self_rotation_matrix_identity
        (pose : CameraPose.t R) (coord_system : string) :
  Conventions.known coord_system ->
  Pose.rotation pose pose coord_system true
  = Ok (Pose.RotMatrix Conventions.identity_matrix) /\
  Pose.rotation pose pose "frd" false
  = Ok (Pose.RotQuaternion Quaternion.one).
Proof.
  intros Hk. rewrite !rotation_by_orientation. split.
  - destruct (orientation_unit pose Hk) as (q & -> & Hq). cbn [bind].
    rewrite qdiv_self by lra. rewrite as_rotation_matrix_one. reflexivity.
  - destruct (orientation_unit pose (or_intror eq_refl : Conventions.known "frd"))
      as (q & -> & Hq).
    cbn [bind]. rewrite qdiv_self by lra. reflexivity.
Qed.

Lemma self_rotation_matrix_identity_witness :
  Pose.rotation Sample.level Sample.level "xyz" true
  = Ok (Pose.RotMatrix Conventions.identity_matrix) /\
  Pose.rotation Sample.level Sample.level "frd" false
  = Ok (Pose.RotQuaternion Quaternion.one).
Proof.
  apply self_rotation_matrix_identity. left. reflexivity.
Defined.

(** X10: the matrix from the geocentric frame to the north-east-down frame
    at any origin keeps the length of every vector. *)
Theorem ned_rotation_keeps_length
        (origin_position : GeoPosition.t R) (v : Np.vec3) :
  Np.norm (Np.matvec
             (Pose.earth_to_ned_local_tangent_plane_rotation origin_position)
             v)
  = Np.norm v.
Proof. unfold Np.norm. now rewrite ned_rotation_isometry. Qed.

(** X11: [translation] never raises, and the length of the translation it
    returns is the distance between the geocentric points of the two poses,
    whatever the orientation of the reference pose. *)
Theorem translation_length
        (wgs84_to_geodetic : R -> R -> R -> Np.vec3)
        (ref_pose current_pose : CameraPose.t R) :
  exists t,
    Pose.translation wgs84_to_geodetic ref_pose current_pose = Ok t /\
    Np.norm t
    = Np.norm
        (Np.vsub
           (GeoPosition.to_geodetic_xyz wgs84_to_geodetic
              (CameraPose.position current_pose))
           (GeoPosition.to_geodetic_xyz wgs84_to_geodetic
              (CameraPose.position ref_pose))).
Proof.
  unfold Pose.translation. cbv zeta.
  pose proof (qnorm_scalar_div_unit
                (qnorm_as_quaternion_frd (CameraPose.rotation ref_pose)))
    as Hunit.
  destruct (as_rotation_matrix_unit Hunit) as [rot_0 Hrot].
  rewrite Hrot. cbn [bind]. eexists. split; [reflexivity|].
  set (v := Np.vsub _ _).
  unfold Np.norm. f_equal.
  rewrite <- (ned_rotation_isometry (CameraPose.position ref_pose) v).
  set (u := Np.matvec _ v).
  rewrite <- (as_rotation_matrix_isometry u Hunit Hrot).
  destruct (Np.matvec rot_0 u) as [[f r] d].
  unfold Pose.frd_translation_to_xyz. np_unfold. ring.
Qed.

(** ** Further properties of config/utils.py *)

Section EstimatorMore.
Import Utils Spec.

Lemma substitute_idempotent (v : F64.float) :
  substitute (substitute v) = substitute v.
Proof. destruct v as [s|s| |s m e]; reflexivity. Qed.

(** Two ascending lists with the same elements are equal. *)
Lemma Sorted_perm_eq (l l' : list Z) :
  Sorted Z.le l -> Sorted Z.le l' -> Permutation l l' -> l = l'.
Proof.
  intros Hl Hl'.
  apply Sorted_StronglySorted in Hl; [|intros x y z; apply Z.le_trans].
  apply Sorted_StronglySorted in Hl'; [|intros x y z; apply Z.le_trans].
  revert l' Hl'. induction Hl as [|a l Hs IH Ha]; intros l' Hl' Hp.
  - now apply Permutation_nil in Hp.
  - destruct Hl' as [|b l' Hs' Hb].
    + apply Permutation_sym, Permutation_nil in Hp. discriminate.
    + assert (Hab : a = b).
      { rewrite Forall_forall in Ha, Hb.
        assert (Hin : In a (b :: l'))
          by (eapply Permutation_in; [exact Hp | now left]).
        assert (Hin' : In b (a :: l))
          by (eapply Permutation_in; [apply Permutation_sym, Hp | now left]).
        destruct Hin as [E|Hin]; [now symmetry|].
        destruct Hin' as [E|Hin']; [exact E|].
        apply Z.le_antisymm; [now apply Ha | now apply Hb]. }
      subst b. f_equal. apply IH; [exact Hs'|].
      now apply Permutation_cons_inv with a.
Qed.

(** [sorted] depends on the elements only, not on their order. *)
Lemma sorted_of_perm (l l' : list Z) :
  Permutation l l' -> sorted l = sorted l'.
Proof.
  intros Hp. apply Sorted_perm_eq; try apply sorted_Sorted.
  eapply perm_trans; [apply sorted_perm|].
  eapply perm_trans; [exact Hp | apply Permutation_sym, sorted_perm].
Qed.

Lemma in_tl {A : Type} (x : A) (l : list A) : In x (tl l) -> In x l.
Proof. destruct l; [intros [] | now right]. Qed.

End EstimatorMore.

(** X12: when the recording has no pose file for any of N >= 2 timestamps,
    the estimator returns N times the default speed 60.0. *)
Theorem no_pose_files_default_speed
        (pose_file : string -> Z -> option (CameraPose.t F64.float))
        (translation_norm :
           CameraPose.t F64.float -> CameraPose.t F64.float -> F64.float)
        (recording : string) (timestamps : list Z) :
  (2 <= List.length timestamps)%nat ->
  (forall t, In t timestamps -> pose_file recording t = None) ->
  Utils.compute_camera_motion_velocities pose_file translation_norm
    recording timestamps
  = Ok (repeat (PyFloat Spec.sixty) (List.length timestamps)).
Proof.
  intros HN Hnone.
  destruct (velocities_ok pose_file translation_norm recording timestamps HN)
    as (raw & first & Hraw & Hfirst & ->).
  pose proof (raw_velocities_length _ _ _ _ Hraw) as Hlen.
  rewrite fill_default_substitute in *.
  assert (Hall : Forall (eq Spec.sixty) (map Spec.substitute raw)).
  { rewrite raw_velocities_ok in Hraw. inversion Hraw; subst raw; clear Hraw.
    rewrite !map_map. rewrite Forall_forall. intros v Hv.
    apply in_map_iff in Hv. destruct Hv as ([d dt] & <- & Hin).
    cbn [fst snd]. apply in_combine_l in Hin.
    unfold Utils.displacements in Hin. apply in_map_iff in Hin.
    destruct Hin as ([p q] & <- & Hin). apply in_combine_r, in_tl in Hin.
    unfold Utils.poses in Hin. apply in_map_iff in Hin.
    destruct Hin as (t & <- & Ht).
    rewrite Hnone
      by (eapply Permutation_in; [apply sorted_perm | exact Ht]).
    replace (Utils.displacement translation_norm (p, None))
      with (F64.of_int 0) by (destruct p; reflexivity).
    symmetry. apply zero_displacement_substituted. }
  apply Forall_eq_repeat in Hall. rewrite length_map in Hall.
  rewrite Hall in *.
  destruct (List.length timestamps) as [|[|n]]; try lia.
  simpl in Hlen. rewrite Hlen in *. simpl in Hfirst. inversion Hfirst.
  simpl. now rewrite map_repeat.
Qed.

Lemma no_pose_files_default_speed_witness :
  Utils.compute_camera_motion_velocities
    Sample.no_pose Sample.one_meter "rec" [300; 100; 200]%Z
  = Ok (repeat (PyFloat Spec.sixty) 3).
Proof.
  apply (@no_pose_files_default_speed
           Sample.no_pose Sample.one_meter "rec" [300; 100; 200]%Z).
  - simpl; lia.
  - reflexivity.
Defined.

(** X13: filling in the default speed twice changes nothing more, and it
    keeps the length of the array. *)
Theorem fill_default_idempotent (velocities : list F64.float) :
  Utils.fill_default (Utils.fill_default velocities)
  = Utils.fill_default velocities /\
  List.length (Utils.fill_default velocities) = List.length velocities.
Proof.
  rewrite !fill_default_substitute, map_map, length_map. split; [|reflexivity].
  apply map_ext, substitute_idempotent.
Qed.

(** X14: the poses the estimator loads, and so the displacements, depend on
    which timestamps it is given and not on their order. *)
Theorem poses_ignore_input_order
        (pose_file : string -> Z -> option (CameraPose.t F64.float))
        (translation_norm :
           CameraPose.t F64.float -> CameraPose.t F64.float -> F64.float)
        (recording : string) (timestamps timestamps' : list Z) :
  Permutation timestamps timestamps' ->
  Utils.poses pose_file recording timestamps
  = Utils.poses pose_file recording timestamps' /\
  Utils.displacements translation_norm
    (Utils.poses pose_file recording timestamps)
  = Utils.displacements translation_norm
      (Utils.poses pose_file recording timestamps').
Proof.
  intros Hp. unfold Utils.poses. now rewrite (sorted_of_perm Hp).
Qed.

Lemma poses_ignore_input_order_witness :
  Utils.poses Sample.every_pose "rec" [200; 100]%Z
  = Utils.poses Sample.every_pose "rec" [100; 200]%Z /\
  Utils.displacements Sample.one_meter
    (Utils.poses Sample.every_pose "rec" [200; 100]%Z)
  = Utils.displacements Sample.one_meter
      (Utils.poses Sample.every_pose "rec" [100; 200]%Z).
Proof.
  apply poses_ignore_input_order. apply perm_swap.
Defined.

(** X15: on an ascending list of timestamps that fit int64, the velocity
    of interval [i] is computed from the poses of the timestamps [i] and
    [i+1] and from the int64 difference of these same two timestamps. *)
Theorem ascending_input_pairs_poses_and_times
        (pose_file : string -> Z -> option (CameraPose.t F64.float))
        (translation_norm :
           CameraPose.t F64.float -> CameraPose.t F64.float -> F64.float)
        (recording : string) (timestamps : list Z) :
  Forall Int64.in_range timestamps ->
  Sorted Z.le timestamps ->
  exists raw,
    Utils.raw_velocities_km_per_h pose_file translation_norm
      recording timestamps = Ok raw /\
    forall i t u,
      nth_error timestamps i = Some t ->
      nth_error timestamps (S i) = Some u ->
      nth_error raw i
      = Some (Spec.interval_velocity translation_norm
                (pose_file recording t, pose_file recording u)
                (Utils.wrap64 (u - t))).
Proof.
  intros _ Hs.
  destruct (Utils.raw_velocities_km_per_h pose_file translation_norm
              recording timestamps) as [raw|e] eqn:Hraw;
    [|rewrite raw_velocities_ok in Hraw; discriminate].
  exists raw. split; [reflexivity|]. intros i t u Ht Hu.
  apply (raw_velocities_nth _ _ _ _ i Hraw); try assumption;
    unfold Utils.poses; rewrite (sorted_of_Sorted Hs);
    now apply map_nth_error.
Qed.

Lemma ascending_input_pairs_poses_and_times_witness :
  Forall Int64.in_range [100; 200]%Z /\
  Sorted Z.le [100; 200]%Z /\
  exists raw,
    Utils.raw_velocities_km_per_h Sample.every_pose Sample.one_meter
      "rec" [100; 200]%Z = Ok raw /\
    nth_error raw 0
    = Some (Spec.interval_velocity Sample.one_meter
              (Some Sample.origin, Some Sample.origin)
              (Utils.wrap64 (200 - 100))).
Proof.
  assert (Hrange : Forall Int64.in_range [100; 200]%Z)
    by (repeat constructor; unfold Int64.in_range; lia).
  assert (Hsorted : Sorted Z.le [100; 200]%Z) by (repeat constructor; lia).
  split; [exact Hrange|]. split; [exact Hsorted|].
  destruct (@ascending_input_pairs_poses_and_times
              Sample.every_pose Sample.one_meter "rec" [100; 200]%Z
              Hrange Hsorted)
    as (raw & Hraw & Hnth).
  exists raw. split; [exact Hraw|]. now apply (Hnth 0%nat 100%Z 200%Z).
Defined.

(** ** Further properties of common/annotations.py *)

Section AnnotationFacts.

Lemma leb_nan_r (v : F64.float) : F64.leb v F64.nan = false.
Proof. destruct v as [s|s| |s m e]; reflexivity. Qed.

Lemma leb_nan_l (v : F64.float) : F64.leb F64.nan v = false.
Proof. reflexivity. Qed.

Lemma LineType_eqb_eq (a b : LineType.t) : LineType.eqb a b = true <-> a = b.
Proof. destruct a, b; simpl; split; congruence. Qed.

Lemma filter_three_way {A : Type} (f g h k : A -> bool) (l : list A) :
  (forall a, k a = f a || g a || h a) ->
  (forall a, f a && g a = false) -> (forall a, f a && h a = false) ->
  (forall a, g a && h a = false) ->
  List.length (filter k l)
  = (List.length (filter f l) + List.length (filter g l)
     + List.length (filter h l))%nat.
Proof.
  intros Hk Hfg Hfh Hgh. induction l as [|a l IH]; [reflexivity|].
  simpl. rewrite Hk. specialize (Hfg a). specialize (Hfh a). specialize (Hgh a).
  destruct (f a), (g a), (h a); simpl in *; try discriminate; lia.
Qed.

End AnnotationFacts.

(** X16: [cables("all")] returns exactly the lines that are not of type
    NOT_CABLE; the visible and the inferred cables are among them, no line
    is both, and the count of "all" is the count of visible plus inferred
    plus merged (VISIBLE_OR_INFERRED) lines. *)
Theorem cables_selections (annotations : ImageAnnotations.t) :
  exists visible inferred all,
    ImageAnnotations.cables annotations "visible" = Ok visible /\
    ImageAnnotations.cables annotations "inferred" = Ok inferred /\
    ImageAnnotations.cables annotations "all" = Ok all /\
    visible = ImageAnnotations.visible_cables annotations /\
    (forall c, In c all <->
               In c (ImageAnnotations.cable_lines annotations) /\
               CableLine.type c <> LineType.NOT_CABLE) /\
    (forall c, In c visible -> In c all /\ ~ In c inferred) /\
    (forall c, In c inferred -> In c all) /\
    List.length all
    = (List.length visible + List.length inferred
       + List.length
           (filter (fun c => LineType.eqb (CableLine.type c)
                                          LineType.VISIBLE_OR_INFERRED)
                   (ImageAnnotations.cable_lines annotations)))%nat.
Proof.
  do 3 eexists. repeat (split; [reflexivity|]).
  unfold CableLine.is_visible, CableLine.is_inferred,
    CableLine.is_visible_or_inferred.
  split; [|split; [|split]].
  - intros c. rewrite filter_In. split; intros [Hin Ht]; (split; [exact Hin|]).
    + destruct (CableLine.type c); simpl in Ht; congruence.
    + destruct (CableLine.type c); simpl; congruence.
  - intros c Hc. apply filter_In in Hc. destruct Hc as [Hin Ht].
    rewrite !filter_In. apply LineType_eqb_eq in Ht. rewrite Ht. simpl.
    split; [now split|]. intros [_ H]. discriminate.
  - intros c Hc. apply filter_In in Hc. destruct Hc as [Hin Ht].
    rewrite filter_In. apply LineType_eqb_eq in Ht. rewrite Ht. now split.
  - apply filter_three_way; intros c; [reflexivity| | |];
      destruct (CableLine.type c); reflexivity.
Qed.

(** X17: every selector [LineType.from_selector] accepts is accepted by
    [cables] too, and the lines of the type it names are among the cables
    returned; "inferred" is accepted by [cables] only. *)
Theorem selector_type_among_cables
        (annotations : ImageAnnotations.t) (selector : string)
        (line_type : LineType.t) :
  LineType.from_selector selector = Ok line_type ->
  (exists cables,
      ImageAnnotations.cables annotations selector = Ok cables /\
      forall c, In c (ImageAnnotations.cable_lines annotations) ->
                CableLine.type c = line_type -> In c cables) /\
  (exists inferred,
      ImageAnnotations.cables annotations "inferred" = Ok inferred) /\
  LineType.from_selector "inferred"
  = Raise (ValueError "Invalid selector 'inferred'").
Proof.
  intros Hsel. split; [|split; [eexists; reflexivity | reflexivity]].
  unfold LineType.from_selector in Hsel. unfold ImageAnnotations.cables.
  destruct (String.eqb_spec selector "visible") as [->|Hv].
  - inversion Hsel; subst. eexists. split; [reflexivity|].
    intros c Hin Ht. apply filter_In. split; [exact Hin|].
    unfold CableLine.is_visible. now rewrite Ht.
  - destruct (String.eqb_spec selector "all") as [->|Ha]; [|discriminate].
    inversion Hsel; subst. cbn. eexists. split; [reflexivity|].
    intros c Hin Ht. apply filter_In. split; [exact Hin|].
    unfold CableLine.is_visible_or_inferred. now rewrite Ht.
Qed.

Lemma selector_type_among_cables_witness :
  (exists cables,
      ImageAnnotations.cables Sample.bare_image "all" = Ok cables /\
      forall c, In c (ImageAnnotations.cable_lines Sample.bare_image) ->
                CableLine.type c = LineType.VISIBLE_OR_INFERRED ->
                In c cables) /\
  (exists inferred,
      ImageAnnotations.cables Sample.bare_image "inferred" = Ok inferred) /\
  LineType.from_selector "inferred"
  = Raise (ValueError "Invalid selector 'inferred'").
Proof.
  apply selector_type_among_cables. reflexivity.
Defined.

(** X18: [poles()] without a bound returns every pole; with a bound it
    returns, in their order, the poles whose height is at most the bound.
    A pole whose height is NaN is never among them, and a NaN bound selects
    no pole. *)
Theorem poles_selection (annotations : ImageAnnotations.t) :
  ImageAnnotations.poles annotations None
  = ImageAnnotations.powerline_poles annotations /\
  (forall max_height pole,
      In pole (ImageAnnotations.poles annotations (Some max_height)) <->
      In pole (ImageAnnotations.powerline_poles annotations) /\
      F64.leb (ImageAnnotations.height pole) max_height = true) /\
  (forall max_height pole,
      In pole (ImageAnnotations.poles annotations (Some max_height)) ->
      F64.isnan (ImageAnnotations.height pole) = false) /\
  ImageAnnotations.poles annotations (Some F64.nan) = [].
Proof.
  unfold ImageAnnotations.poles. split; [reflexivity|]. split; [|split].
  - intros max_height pole. apply filter_In.
  - intros max_height pole Hin. apply filter_In in Hin. destruct Hin as [_ H].
    destruct (ImageAnnotations.height pole); try reflexivity. discriminate.
  - induction (ImageAnnotations.powerline_poles annotations) as [|p l IH];
      [reflexivity|].
    simpl. now rewrite leb_nan_r.
Qed.

Section PathFacts.
Import PurePath AnnotationPaths.

Lemma parents_length (p : t) :
  List.length (parents p) = List.length (parts p).
Proof. unfold parents. now rewrite length_map, length_rev, length_seq. Qed.

Lemma starts_with_firstn (k : nat) (l : list string) :
  starts_with (firstn k l) l = true.
Proof.
  revert k; induction l as [|a l IH]; intros [|k]; try reflexivity.
  simpl. now rewrite String.eqb_refl, IH.
Qed.

(** The ancestor at index -3 keeps the first two components. *)
Lemma parents_third_from_end (p : t) :
  (3 <= List.length (parts p))%nat ->
  getitem (parents p) (-3) = Ok (mk (absolute p) (firstn 2 (parts p))).
Proof.
  intros Hn. unfold getitem. rewrite parents_length.
  set (n := List.length (parts p)) in *.
  replace (-3 <? 0)%Z with true by reflexivity.
  replace ((0 <=? -3 + Z.of_nat n) && (-3 + Z.of_nat n <? Z.of_nat n))%Z
    with true by (symmetry; apply andb_true_iff; split; lia).
  replace (Z.to_nat (-3 + Z.of_nat n)) with (n - 3)%nat by lia.
  unfold parents. fold n.
  erewrite map_nth_error; [reflexivity|].
  rewrite nth_error_rev, length_seq.
  replace (n - 3 <? n)%nat with true by (symmetry; apply Nat.ltb_lt; lia).
  replace (n - S (n - 3))%nat with 2%nat by lia.
  rewrite nth_error_seq.
  replace (2 <? n)%nat with true by (symmetry; apply Nat.ltb_lt; lia).
  reflexivity.
Qed.

End PathFacts.

(** X19: [_fix_relative_image_path] returns a path of exactly three
    components as it is, reduces a longer path to a relative path without
    its first two components, and raises on a shorter path. *)
Theorem fix_relative_image_path_cases (image_path : PurePath.t) :
  Forall (fun part => part <> "") (PurePath.parts image_path) ->
  (List.length (PurePath.parts image_path) = 3%nat ->
   AnnotationPaths._fix_relative_image_path image_path = Ok image_path) /\
  (3 < List.length (PurePath.parts image_path) ->
   AnnotationPaths._fix_relative_image_path image_path
   = Ok (PurePath.mk false (skipn 2 (PurePath.parts image_path))))%nat /\
  (List.length (PurePath.parts image_path) < 3 ->
   AnnotationPaths._fix_relative_image_path image_path
   = Raise (ValueError ("Invalid image path '"
                          ++ PurePath.to_string image_path ++ "'")))%nat.
Proof.
  intros Hparts. unfold AnnotationPaths._fix_relative_image_path. cbv zeta.
  rewrite parents_length. split; [|split]; intros Hn.
  - rewrite Hn. destruct image_path as [root parts]. cbn [PurePath.parts] in *.
    destruct parts as [|a [|b [|c [|d l]]]]; try discriminate.
    cbn. unfold PurePath.joinpath. cbn.
    assert (Hc : c <> "").
    { inversion Hparts as [|? ? _ H1]; inversion H1 as [|? ? _ H2];
        now inversion H2. }
    apply String.eqb_neq in Hc. now rewrite Hc.
  - replace (List.length (PurePath.parts image_path) =? 3)%nat with false
      by (symmetry; apply Nat.eqb_neq; lia).
    replace (3 <? List.length (PurePath.parts image_path))%nat with true
      by (symmetry; apply Nat.ltb_lt; lia).
    rewrite parents_third_from_end by lia. cbn [bind].
    unfold PurePath.relative_to. cbn [PurePath.absolute PurePath.parts].
    rewrite Bool.eqb_reflx, starts_with_firstn, length_firstn.
    cbn [andb]. now rewrite Nat.min_l by lia.
  - replace (List.length (PurePath.parts image_path) =? 3)%nat with false
      by (symmetry; apply Nat.eqb_neq; lia).
    replace (3 <? List.length (PurePath.parts image_path))%nat with false
      by (symmetry; apply Nat.ltb_ge; lia).
    reflexivity.
Qed.

(** A path of four components loses two of them. *)
Lemma fix_relative_image_path_cases_witness :
  AnnotationPaths._fix_relative_image_path
    (PurePath.mk false ["data"; "rec"; "day"; "100.png"])
  = Ok (PurePath.mk false ["day"; "100.png"]).
Proof.
  apply (@fix_relative_image_path_cases
           (PurePath.mk false ["data"; "rec"; "day"; "100.png"])).
  - repeat constructor; discriminate.
  - simpl. lia.
Defined.

(** ** Properties of config/daedalean.py *)

Section DaedaleanFacts.
Import Daedalean.
Local Open Scope Z_scope.

Lemma rfind_bounds (s : list ascii) (c : ascii) :
  -1 <= rfind s c < Z.of_nat (List.length s).
Proof.
  induction s as [|a s IH]; [simpl; lia|].
  cbn [rfind List.length]. destruct (Z.leb_spec 0 (rfind s c)); [lia|].
  destruct (Ascii.eqb a c); lia.
Qed.

Lemma rfind_absent (s : list ascii) (c : ascii) :
  existsb (Ascii.eqb c) s = false -> rfind s c = -1.
Proof.
  induction s as [|a s IH]; [reflexivity|]. cbn [existsb rfind].
  intros H. apply orb_false_iff in H. destruct H as [Ha Hs].
  rewrite (IH Hs). cbn. rewrite Ascii.eqb_sym. now rewrite Ha.
Qed.

Lemma rfind_present (s : list ascii) (c : ascii) :
  existsb (Ascii.eqb c) s = true -> 0 <= rfind s c.
Proof.
  induction s as [|a s IH]; [discriminate|]. cbn [existsb rfind].
  intros H. destruct (Z.leb_spec 0 (rfind s c)) as [Hr|Hr]; [lia|].
  destruct (existsb (Ascii.eqb c) s); [specialize (IH eq_refl); lia|].
  rewrite orb_false_r in H. rewrite Ascii.eqb_sym, H. lia.
Qed.

(** Cutting a string at the index [rfind] gives and putting the character
    back restores the string. *)
Lemma rfind_split (s : list ascii) (c : ascii) :
  0 <= rfind s c ->
  (firstn (Z.to_nat (rfind s c)) s
   ++ c :: skipn (Z.to_nat (rfind s c + 1)) s)%list = s.
Proof.
  induction s as [|a s IH]; [simpl; lia|]. cbn [rfind].
  destruct (Z.leb_spec 0 (rfind s c)) as [Hr|Hr].
  - intros _. replace (Z.to_nat (rfind s c + 1)) with (S (Z.to_nat (rfind s c)))
      by lia.
    replace (Z.to_nat (rfind s c + 1 + 1))
      with (S (Z.to_nat (rfind s c + 1))) by lia.
    cbn [firstn skipn app]. now rewrite IH.
  - destruct (Ascii.eqb_spec a c) as [->|_]; [reflexivity | lia].
Qed.

End DaedaleanFacts.

(** X20: the recording name that [settings] derives from a sequence name is
    the sequence name itself when the name contains a slash; when it does
    not, it is the name without its last character, a slash, and the whole
    name again. *)
Theorem recording_of_sequence (sequence : list ascii) :
  Daedalean.recording sequence =
  if existsb (Ascii.eqb "/"%char) sequence then sequence
  else (removelast sequence ++ "/"%char :: sequence)%list.
Proof.
  unfold Daedalean.recording, Daedalean.slice_to, Daedalean.slice_from.
  cbv zeta. pose proof (rfind_bounds sequence "/"%char) as Hb.
  destruct (existsb (Ascii.eqb "/"%char) sequence) eqn:Hin.
  - pose proof (rfind_present _ _ Hin) as Hr.
    replace (Daedalean.rfind sequence "/" <? 0)%Z with false
      by (symmetry; apply Z.ltb_ge; lia).
    replace (Daedalean.rfind sequence "/" + 1 <? 0)%Z with false
      by (symmetry; apply Z.ltb_ge; lia).
    rewrite !Z.min_l by lia. now apply rfind_split.
  - rewrite (rfind_absent _ _ Hin).
    change (-1 <? 0)%Z with true. change (-1 + 1)%Z with 0%Z.
    change (0 <? 0)%Z with false. cbv iota.
    rewrite Z.min_l by lia. change (Z.to_nat 0) with 0%nat. cbn [skipn].
    f_equal. rewrite removelast_firstn_len. f_equal. lia.
Qed.

(** X21: for a sequence with at least one frame, [settings] gets as many
    camera velocities as rain fall rates, one per frame; for a sequence
    without frames the velocity estimator raises and so does [settings]. *)
Theorem sim_steps_lengths
        (pose_file : string -> Z -> option (CameraPose.t F64.float))
        (translation_norm :
           CameraPose.t F64.float -> CameraPose.t F64.float -> F64.float)
        (sequence : list ascii) (timestamps : list Z) :
  ((1 <= List.length timestamps)%nat <->
   exists cam_motion rain_fallrate,
     Daedalean.sim_steps pose_file translation_norm sequence timestamps
     = Ok (cam_motion, rain_fallrate) /\
     List.length cam_motion = List.length timestamps /\
     List.length rain_fallrate = List.length timestamps) /\
  Daedalean.sim_steps pose_file translation_norm sequence []
  = Raise (IndexError Spec.empty_index_message).
Proof.
  split; [|reflexivity]. unfold Daedalean.sim_steps. cbv zeta. split.
  - intros HN. destruct timestamps as [|t [|u l]]; [simpl in HN; lia | |].
    + do 2 eexists. repeat split; reflexivity.
    + destruct (velocities_length pose_file translation_norm
                  (string_of_list_ascii (Daedalean.recording sequence))
                  (t :: u :: l)) as (out & -> & Hlen); [simpl; lia|].
      cbn [bind]. do 2 eexists. split; [reflexivity|].
      split; [exact Hlen | apply repeat_length].
  - intros (cam & rain & H & _). destruct timestamps; [discriminate|].
    simpl; lia.
Qed.
